(** * treetally / silvimetric: grid metrics and the tiled shatter pipeline

    Shallow embedding of
    - [src/silvimetric/resources/metric.py]  (the per-cell metric functions),
    - [src/silvimetric/commands/shatter.py]  (arrange / get_metrics / write),
    - [python/main.py]                       (Bounds, Chunk, arrange_data).

    Numbers.  The source computes on IEEE doubles.  In the modules [Np],
    [Metric], [Shatter] and [Main] point attributes are exact rationals [Q]
    (compared with [==]): comparisons, counts, order statistics and cell
    indices of exactly representable data come out as in the source, while
    sums and quotients are the exact values the source rounds.  The
    statements about those modules are the ones rounding cannot change.
    The module [Doubles] evaluates [np.mean], [np.var] and [np.std] on
    binary64 floats, to show where rounding does change the result.  A
    division whose divisor may be zero ([m_cv]) returns an [npfloat], which
    adds the IEEE special values.  [np.sqrt], the power x**1.5, [lmom4],
    and in [m_cv] the two numpy reductions, are parameters. *)

From stdpp Require Import gmap strings list.
From Stdlib Require Import QArith Qround Qminmax Qabs Lqa Sorted Floats.

(** ** numpy reductions on a one-dimensional array *)

Module Np.

Local Open Scope Q_scope.

(** [np.max] / [np.min] raise ValueError on a zero-size array: [None]. *)
Definition np_max (data : list Q) : option Q :=
  match data with
  | [] => None
  | x :: xs => Some (fold_left Qmax xs x)
  end.

Definition np_min (data : list Q) : option Q :=
  match data with
  | [] => None
  | x :: xs => Some (fold_left Qmin xs x)
  end.

(** [argmax_from lt best besti i xs]: index of the first greatest element,
    scanning [xs] whose head has index [i], the best so far being [best] at
    [besti].  A later element replaces it only when strictly greater. *)
Fixpoint argmax_from {A} (lt : A -> A -> bool) (best : A) (besti i : nat)
    (xs : list A) : nat :=
  match xs with
  | [] => besti
  | x :: xs' =>
      if lt best x then argmax_from lt x i (S i) xs'
      else argmax_from lt best besti (S i) xs'
  end.

Definition Qltb (a b : Q) : bool := negb (Qle_bool b a).

(** [np.argmax(data)]: position of the first maximum (0 stands in for the
    ValueError on an empty array, which no caller below can reach). *)
Definition np_argmax (data : list Q) : nat :=
  match data with
  | [] => O
  | x :: xs => argmax_from Qltb x O 1%nat xs
  end.

Definition argmax_counts (counts : list nat) : nat :=
  match counts with
  | [] => O
  | x :: xs => argmax_from Nat.ltb x O 1%nat xs
  end.

Definition np_sum (data : list Q) : Q := fold_right Qplus 0 data.

Definition len (data : list Q) : Q := inject_Z (Z.of_nat (length data)).

(** [np.mean]: sum / n.  (On an empty array numpy yields nan with a
    warning; every statement below is about nonempty vectors.) *)
Definition np_mean (data : list Q) : Q := np_sum data / len data.

(** [np.var]: mean(abs(x - mean)**2), the population variance. *)
Definition np_var (data : list Q) : Q :=
  let m := np_mean data in
  np_mean (map (fun x => Qabs (x - m) * Qabs (x - m)) data).

(** Insertion sort, ascending: the order [np.sort] / [np.percentile] use. *)
Fixpoint insert_sorted (x : Q) (l : list Q) : list Q :=
  match l with
  | [] => [x]
  | y :: l' => if Qle_bool x y then x :: l else y :: insert_sorted x l'
  end.

Definition np_sort (data : list Q) : list Q := fold_right insert_sorted [] data.

(** [np.median]: middle element of the sorted data, or the mean of the two
    middle elements when the length is even. *)
Definition np_median (data : list Q) : Q :=
  let s := np_sort data in
  let n := length data in
  if Nat.even n
  then (nth (n / 2 - 1) s 0 + nth (n / 2) s 0) / 2
  else nth (n / 2) s 0.

(** [np.percentile(data, q)], default method 'linear': with the sorted data
    [s] and virtual index [q/100 * (n-1)], interpolate between the two
    neighbouring order statistics. *)
Definition np_percentile (data : list Q) (q : Z) : Q :=
  let s := np_sort data in
  let n := length data in
  let virt := inject_Z q / 100 * inject_Z (Z.of_nat (n - 1)) in
  let lo := Qfloor virt in
  let frac := virt - inject_Z lo in
  let a := nth (Z.to_nat lo) s 0 in
  let b := nth (Nat.min (Z.to_nat lo + 1) (n - 1)) s 0 in
  a + (b - a) * frac.

(** [np.histogram(data, bins=nbins)] over [minv, maxv]: equal-width bins,
    the last one closed on the right. *)
Definition bin_of (nbins : nat) (minv maxv x : Q) : nat :=
  let k := Z.to_nat (Qfloor ((x - minv) * inject_Z (Z.of_nat nbins) / (maxv - minv))) in
  Nat.min k (nbins - 1).

Definition np_histogram (data : list Q) (nbins : nat) (minv maxv : Q) : list nat :=
  map (fun b => length (List.filter (fun x => Nat.eqb (bin_of nbins minv maxv x) b) data))
      (seq 0 nbins).

(** The interpolation step of [np.percentile] on its own: the value at the
    virtual index [virt] of the sorted array [s] of length [n]. *)
Definition lerp_at (s : list Q) (n : nat) (virt : Q) : Q :=
  let lo := Qfloor virt in
  let frac := virt - inject_Z lo in
  let a := nth (Z.to_nat lo) s 0 in
  let b := nth (Nat.min (Z.to_nat lo + 1) (n - 1)) s 0 in
  a + (b - a) * frac.

(** The virtual index of the [q]-th percentile in an array of length [n]. *)
Definition virtual_index (n : nat) (q : Z) : Q :=
  inject_Z q / 100 * inject_Z (Z.of_nat (n - 1)).

End Np.

(** ** The metric functions of [metric.py] *)

Module Metric.
Import Np.
Local Open Scope Q_scope.

(** The value the metrics return for statistically under-supported input. *)
Definition sentinel : Q := -9999.

(** A float that may be non-finite: what a division by zero leaves behind.
    The sign of an infinity is not tracked. *)
Inductive npfloat : Type :=
  | finite (q : Q)
  | inf
  | nan.

(** Float division [a / b] of numpy scalars: no exception, a zero divisor
    gives nan for 0/0 and an infinity otherwise. *)
Definition np_divide (a b : Q) : npfloat :=
  if Qeq_bool b 0 then (if Qeq_bool a 0 then nan else inf)
  else finite (a / b).

Definition m_count (data : list Q) : nat := length data.

Definition m_mean (data : list Q) : Q := np_mean data.

Definition m_mode (data : list Q) : option Q :=
  let nbins := 64%nat in
  maxv ← np_max data;
  minv ← np_min data;
  if Qeq_bool minv maxv then Some minv
  else
    (* computed and never read again *)
    let bins := np_histogram data nbins minv maxv in
    let thebin := np_argmax data in
    Some (minv + inject_Z (Z.of_nat thebin) * (maxv - minv)
                 / (inject_Z (Z.of_nat nbins) - 1)).

Definition m_median (data : list Q) : Q := np_median data.

Definition m_min (data : list Q) : option Q := np_min data.

Definition m_max (data : list Q) : option Q := np_max data.

Definition m_variance (data : list Q) : Q := np_var data.

Definition m_crr (data : list Q) : option Q :=
  maxv ← np_max data;
  minv ← np_min data;
  if Qeq_bool minv maxv then Some sentinel
  else Some ((np_mean data - minv) / (maxv - minv)).

(** [range(1, 100)] *)
Definition percents : list Z := map Z.of_nat (seq 1 99).

Definition m_profilearea (data : list Q) : option Q :=
  maxv ← np_max data;
  if Qle_bool maxv 0 then Some sentinel
  else
    let p := map (np_percentile data) percents in
    minv ← np_min data;
    let p0 := Qmax minv 0 in
    let p98 := nth 98 p 0 in
    if Qltb 0 p98 then
      let pa := p0 / p98 in
      let pa := fold_left (fun pa ip => pa + 2 * ip / p98) (firstn 97 p) pa in
      let pa := pa + 1 in
      Some (pa * (1 # 2))
    else Some sentinel.

Section Externals.

(** [np.sqrt] on doubles; scipy's [stats.skew] and [stats.kurtosis]; and
    [lmom4] from [resources/lmom4.py], which returns the first four
    L-moments [l[0] .. l[3]]. *)
Variable np_sqrt : Q -> Q.
Variable stats_skew stats_kurtosis : list Q -> npfloat.
Variable lmom4 : list Q -> Q * Q * Q * Q.

(** The doubles [np.std(data)] and [np.mean(data)] evaluate to, rounding
    included. *)
Variable std_of mean_of : list Q -> Q.

Definition np_std (data : list Q) : Q := np_sqrt (np_var data).

Definition m_stddev (data : list Q) : Q := np_std data.

Definition m_cv (data : list Q) : npfloat :=
  np_divide (std_of data) (mean_of data).

Definition m_skewness (data : list Q) : npfloat :=
  if (length data <? 4)%nat then finite sentinel
  else stats_skew data.

Definition m_kurtosis (data : list Q) : npfloat :=
  if (length data <? 4)%nat then finite sentinel
  else stats_kurtosis data.

Definition m_l1 (data : list Q) : Q :=
  if (length data <? 4)%nat then sentinel
  else np_mean data.

Definition m_l2 (data : list Q) : Q :=
  if (length data <? 4)%nat then sentinel
  else let '(l0, l1, l2, l3) := lmom4 data in l1.

Definition m_l3 (data : list Q) : Q :=
  if (length data <? 4)%nat then sentinel
  else let '(l0, l1, l2, l3) := lmom4 data in l2.

Definition m_l4 (data : list Q) : Q :=
  if (length data <? 4)%nat then sentinel
  else let '(l0, l1, l2, l3) := lmom4 data in l3.

Definition m_lcv (data : list Q) : Q :=
  if (length data <? 4)%nat then sentinel
  else let '(l0, l1, l2, l3) := lmom4 data in
       if Qeq_bool l0 0 then sentinel else l1 / l0.

Definition m_lskewness (data : list Q) : Q :=
  if (length data <? 4)%nat then sentinel
  else let '(l0, l1, l2, l3) := lmom4 data in
       if Qeq_bool l1 0 then sentinel else l2 / l1.

Definition m_lkurtosis (data : list Q) : Q :=
  if (length data <? 4)%nat then sentinel
  else let '(l0, l1, l2, l3) := lmom4 data in
       if Qeq_bool l1 0 then sentinel else l3 / l1.

End Externals.

(** *** What the specification asks of mode and profile area *)

(** Mode as specified: the height of the highest-count bin of the 64-bin
    histogram over [min, max]. *)
Definition mode_spec (data : list Q) : option Q :=
  let nbins := 64%nat in
  maxv ← np_max data;
  minv ← np_min data;
  if Qeq_bool minv maxv then Some minv
  else
    let thebin := argmax_counts (np_histogram data nbins minv maxv) in
    Some (minv + inject_Z (Z.of_nat thebin) * (maxv - minv)
                 / (inject_Z (Z.of_nat nbins) - 1)).

(** Profile area as specified: the composite trapezoid over the percentiles
    1..99, each divided by the 99th:
    0.5 * (p1/p99 + 2*p2/p99 + ... + 2*p98/p99 + p99/p99). *)
Definition profilearea_spec (data : list Q) : Q :=
  let p := fun k : Z => np_percentile data k in
  (1 # 2) * (p 1%Z / p 99%Z
             + np_sum (map (fun k => 2 * p k / p 99%Z) (map Z.of_nat (seq 2 97)))
             + p 99%Z / p 99%Z).

(** The value of the integration branch of [m_profilearea] when the loop
    visits the first [n] percentiles after the start node [p0]. *)
Definition trapezoid_upto (data : list Q) (p0 : Q) (n : nat) : Q :=
  let p := fun k : Z => np_percentile data k in
  (1 # 2) * (p0 / p 99%Z
             + np_sum (map (fun k => 2 * p k / p 99%Z) (map Z.of_nat (seq 1 n)))
             + 1).

(** A square root that is exact on squares of rationals, to run the
    [np_sqrt]-dependent metrics on concrete data. *)
Definition sqrt_on_squares (q : Q) : Q :=
  Z.sqrt (Qnum (Qred q)) # Pos.sqrt (Qden (Qred q)).

(** Population fourth-moment kurtosis (Fisher), as [stats.kurtosis]
    computes it: m4 / m2^2 - 3, and nan where the second moment vanishes
    (scipy tests m2 against a rounding threshold relative to the mean, which
    in exact arithmetic is m2 = 0). *)
Definition kurtosis_by_moments (data : list Q) : npfloat :=
  let m := np_mean data in
  let m2 := np_mean (map (fun x => (x - m) ^ 2) data) in
  let m4 := np_mean (map (fun x => (x - m) ^ 4) data) in
  if Qeq_bool m2 0 then nan else finite (m4 / (m2 * m2) - 3).

(** [stats.skew]: the third central moment over the 1.5-th power of the
    second, nan for zero variance.  [pow15] is the float power x**1.5. *)
Definition skew_by_moments (pow15 : Q -> Q) (data : list Q) : npfloat :=
  let m := np_mean data in
  let m2 := np_mean (map (fun x => (x - m) ^ 2) data) in
  let m3 := np_mean (map (fun x => (x - m) ^ 3) data) in
  if Qeq_bool m2 0 then nan else finite (m3 / pow15 m2).

(** *** The metrics built from counts and percentiles *)

(** [(data > t).sum()]: how many values exceed [t]. *)
Definition count_above (t : Q) (data : list Q) : nat :=
  length (List.filter (fun x => Qltb t x) data).

Definition m_abovemean (data : list Q) : Q :=
  inject_Z (Z.of_nat (count_above (np_mean data) data)) / len data.


Definition m_90m10 (data : list Q) : Q :=
  let p := map (np_percentile data) [10; 90]%Z in
  nth 1 p 0 - nth 0 p 0.

Definition m_95m05 (data : list Q) : Q :=
  let p := map (np_percentile data) [5; 95]%Z in
  nth 1 p 0 - nth 0 p 0.

Definition m_p01 (data : list Q) : Q := np_percentile data 1.
Definition m_p05 (data : list Q) : Q := np_percentile data 5.
Definition m_p10 (data : list Q) : Q := np_percentile data 10.
Definition m_p20 (data : list Q) : Q := np_percentile data 20.
Definition m_p25 (data : list Q) : Q := np_percentile data 25.
Definition m_p30 (data : list Q) : Q := np_percentile data 30.
Definition m_p40 (data : list Q) : Q := np_percentile data 40.
Definition m_p50 (data : list Q) : Q := np_percentile data 50.
Definition m_p60 (data : list Q) : Q := np_percentile data 60.
Definition m_p70 (data : list Q) : Q := np_percentile data 70.
Definition m_p75 (data : list Q) : Q := np_percentile data 75.
Definition m_p80 (data : list Q) : Q := np_percentile data 80.
Definition m_p90 (data : list Q) : Q := np_percentile data 90.
Definition m_p95 (data : list Q) : Q := np_percentile data 95.
Definition m_p99 (data : list Q) : Q := np_percentile data 99.

Definition m_allcover (data : list Q) : Q :=
  let threshold := 2 in
  inject_Z (Z.of_nat (count_above threshold data)) / len data.

End Metric.

(** ** [np.mean], [np.var] and [np.std] on binary64 floats *)

Module Doubles.

(** [np.add.reduce] on a float64 vector: the first value, plus the sum of
    the remaining ones, which numpy accumulates in order from -0.0 when
    there are fewer than eight of them.  Longer vectors are summed in
    blocks; they are outside this model ([None]). *)
Definition np_sum (data : list float) : option float :=
  match data with
  | [] => Some PrimFloat.zero
  | x :: xs =>
      if (length xs <? 8)%nat
      then Some (PrimFloat.add x (fold_left PrimFloat.add xs PrimFloat.neg_zero))
      else None
  end.

Definition count (data : list float) : float :=
  PrimFloat.of_uint63 (Uint63.of_nat (length data)).

(** [np.mean]: the rounded sum divided by the number of values. *)
Definition np_mean (data : list float) : option float :=
  s ← np_sum data; Some (PrimFloat.div s (count data)).

(** [np.var]: the mean of the squared differences from the rounded mean. *)
Definition np_var (data : list float) : option float :=
  m ← np_mean data;
  np_mean (map (fun x => PrimFloat.mul (PrimFloat.sub x m) (PrimFloat.sub x m)) data).

Definition np_std (data : list float) : option float :=
  PrimFloat.sqrt <$> np_var data.

Definition m_mean (data : list float) : option float := np_mean data.

Definition m_variance (data : list float) : option float := np_var data.

Definition m_stddev (data : list float) : option float := np_std data.

(** The double nearest to 0.1, and the one just above it. *)
Definition tenth : float := 0x1.999999999999ap-4%float.

Definition above_tenth : float := 0x1.999999999999bp-4%float.

End Doubles.

(** ** The per-tile stages of [commands/shatter.py] *)

Module Shatter.
Import Np Metric.
Local Open Scope Q_scope.

Inductive exn : Type := KeyError | AttributeError | ValueError.

Inductive outcome (A : Type) : Type :=
  | Ok (a : A)
  | Raised (e : exn).
Arguments Ok {A} a.
Arguments Raised {A} e.

(** A row of a pandas DataFrame gives the value of each column by name; the
    frame lists which names are columns.  Columns are parallel by
    construction, as in pandas. *)
Definition Row : Type := string -> Q.

Record DataFrame : Type := { columns : list string; rows : list Row }.

Definition size (df : DataFrame) : nat :=
  (length (rows df) * length (columns df))%nat.

Definition has_column (c : string) (cols : list string) : bool :=
  existsb (String.eqb c) cols.

Record Rect : Type := { minx : Q; miny : Q; maxx : Q; maxy : Q }.

(** The part of an Extents that [arrange] reads. *)
Record Extents : Type := { bounds : Rect }.

(** [da.floor] written back into the xi / yi columns. *)
Definition floor_index (r : Row) : Row :=
  fun c =>
    if String.eqb c "xi" then inject_Z (Qfloor (r "xi"%string))
    else if String.eqb c "yi" then inject_Z (Qfloor (r "yi"%string))
    else r c.

Definition cell_key (r : Row) : Z * Z :=
  (Qfloor (r "xi"%string), Qfloor (r "yi"%string)).

(** [groupby(['xi','yi'])]: the rows of each cell, in input-row order. *)
Definition groupby (rs : list Row) : gmap (Z * Z) (list Row) :=
  foldr (fun r m => <[cell_key r := r :: default [] (m !! cell_key r)]> m) ∅ rs.

Record GroupBy : Type :=
  { g_columns : list string; groups : gmap (Z * Z) (list Row) }.

Definition arrange (points : option DataFrame) (leaf : Extents)
    (attrs : list string) : outcome (option GroupBy) :=
  match points with
  | None => Ok None
  | Some points =>
      if (size points =? 0)%nat then Ok None
      else if negb (has_column "Y" (columns points)) then Raised AttributeError
      else
        let kept_y :=
          List.filter (fun r => Qltb (r "Y"%string) (maxy (bounds leaf))) (rows points) in
        let selected := attrs ++ ["xi"; "yi"]%string in
        if negb (has_column "X" (columns points)) then Raised AttributeError
        else if negb (forallb (fun c => has_column c (columns points)) selected)
        then Raised KeyError
        else if has_column "xi" attrs || has_column "yi" attrs
        then (* a key column selected twice: groupby refuses it *)
          Raised ValueError
        else
          let kept :=
            List.filter (fun r => Qltb (r "X"%string) (maxx (bounds leaf))) kept_y in
          let floored := map floor_index kept in
          Ok (Some {| g_columns := selected; groups := groupby floored |})
  end.

(** The two boundary tests of [arrange], on one row. *)
Definition kept_by_boundary (leaf : Extents) (r : Row) : bool :=
  Qltb (r "Y"%string) (maxy (bounds leaf)) && Qltb (r "X"%string) (maxx (bounds leaf)).

(** A row of a frame with the columns X, Y, Z, xi, yi. *)
Definition point_row (x y z cx cy : Q) : Row :=
  fun c =>
    if String.eqb c "X" then x
    else if String.eqb c "Y" then y
    else if String.eqb c "Z" then z
    else if String.eqb c "xi" then cx
    else if String.eqb c "yi" then cy
    else 0.

Definition point_columns : list string := ["X"; "Y"; "Z"; "xi"; "yi"]%string.

(** A unit tile and a batch of two points, the second on the tile's upper
    Y edge; and the batch made of that second point alone. *)
Definition unit_leaf : Extents :=
  {| bounds := {| minx := 0; miny := 0; maxx := 1; maxy := 1 |} |}.

Definition inner_point : Row := point_row (1 # 2) (1 # 2) 7 (1 # 2) (1 # 2).

Definition edge_point : Row := point_row (1 # 2) 1 5 (1 # 2) 1.

Definition two_points : DataFrame :=
  {| columns := point_columns; rows := [inner_point; edge_point] |}.

Definition edge_only : DataFrame :=
  {| columns := point_columns; rows := [edge_point] |}.

Definition one_cell : GroupBy :=
  {| g_columns := ["Z"; "xi"; "yi"]%string;
     groups := groupby [floor_index inner_point] |}.

Section Metrics.

(** The type of a metric value. *)
Variable V : Type.

Record MetricEntry : Type := { name : string; method : list Q -> V }.

Definition entry_name (m : MetricEntry) (attr : string) : string :=
  ("m_" ++ attr ++ "_" ++ name m)%string.

(** [storage.config]: the attribute names and the metrics. *)
Record StorageConfig : Type :=
  { attrs : list string; metrics : list MetricEntry }.

(** One row of [joined_data]: the raw attribute vectors of the cell, the
    metric columns, and [count]. *)
Record CellRow : Type :=
  { raw : gmap string (list Q); computed : gmap string V; count : nat }.

Definition column_of (c : string) (rs : list Row) : list Q :=
  map (fun r => r c) rs.

(** [data_in.agg(list)]: every non-key column of the group as a list. *)
Definition agg_list (cols : list string) (rs : list Row) : gmap string (list Q) :=
  list_to_map (map (fun c => (c, column_of c rs)) cols).

(** [data_in.agg(ms)] with the column level dropped. *)
Definition agg_metrics (cfg : StorageConfig) (rs : list Row) : gmap string V :=
  list_to_map
    (flat_map (fun a => map (fun m => (entry_name m a, method m (column_of a rs)))
                            (metrics cfg))
              (attrs cfg)).

Definition value_columns (g : GroupBy) : list string :=
  List.filter (fun c => negb (has_column c ["xi"; "yi"]%string)) (g_columns g).

(** The table [get_metrics] hands to [write]; [(dx, dy, dd)] is this
    table with its index and its columns taken apart. *)
Definition get_metrics (data_in : option GroupBy) (cfg : StorageConfig)
    : outcome (option (gmap (Z * Z) CellRow)) :=
  match data_in with
  | None => Ok None
  | Some g =>
      let cols := value_columns g in
      if negb (forallb (fun a => has_column a cols) (attrs cfg))
      then Raised KeyError
      else if negb (has_column "Z" cols) then Raised AttributeError
      else
        Ok (Some ((fun rs =>
                     let att_data := agg_list cols rs in
                     {| raw := att_data;
                        computed := agg_metrics cfg rs;
                        count := length (default [] (att_data !! "Z"%string)) |})
                  <$> groups g))
  end.

(** The array opened for writing: the fragments written so far. *)
Definition Store : Type := list (gmap (Z * Z) CellRow).

Definition count_sum (t : gmap (Z * Z) CellRow) : nat :=
  map_fold (fun _ row acc => (count row + acc)%nat) O t.

(** [write]: the store after the call and the number of points written.
    On a table without rows [dd['count'].sum()] is the Python integer 0,
    which has no [item]: AttributeError. *)
Definition write (data_in : option (gmap (Z * Z) CellRow)) (tdb : Store)
    : outcome (Store * nat) :=
  match data_in with
  | None => Ok (tdb, O)
  | Some t =>
      if (base.size t =? 0)%nat then Raised AttributeError
      else Ok (tdb ++ [t], count_sum t)
  end.

End Metrics.

(** A configuration with the attribute Z and the metric [mean]. *)
Definition mean_of_Z : StorageConfig Q :=
  {| attrs := ["Z"%string];
     metrics := [{| name := "mean"; method := m_mean |}] |}.

Arguments name {V} _.
Arguments method {V} _.
Arguments attrs {V} _.
Arguments metrics {V} _.
Arguments raw {V} _.
Arguments computed {V} _.
Arguments count {V} _.
Arguments get_metrics {V} _ _.
Arguments write {V} _ _.

End Shatter.

(** ** Bounds and chunks of [python/main.py] *)

Module Main.
Import Np.
Local Open Scope Q_scope.

Record Bounds : Type :=
  { minx : Q; miny : Q; maxx : Q; maxy : Q;
    rangex : Q; rangey : Q;
    xi : Z; yi : Z;
    cell_size : Q; group_size : Z }.

(** [Bounds.__init__]; the float division raises ZeroDivisionError for a
    zero cell size.  [xi] and [yi] are the ceilings of the exact quotients;
    the source takes the ceiling of the rounded quotient, which is the same
    number whenever the quotient is exactly representable. *)
Definition Bounds_init (minx miny maxx maxy cell_size : Q) (group_size : Z)
    : option Bounds :=
  if Qeq_bool cell_size 0 then None
  else
    let rangex := maxx - minx in
    let rangey := maxy - miny in
    Some {| minx := minx; miny := miny; maxx := maxx; maxy := maxy;
            rangex := rangex; rangey := rangey;
            xi := Qceiling (rangex / cell_size);
            yi := Qceiling (rangey / cell_size);
            cell_size := cell_size; group_size := group_size |}.

(** [range(start, stop)] *)
Definition py_range (start stop : Z) : list Z :=
  map (fun k => (start + Z.of_nat k)%Z) (seq 0 (Z.to_nat (stop - start))).

(** [range(start, stop, step)]; ValueError for a zero step. *)
Definition py_range_step (start stop step : Z) : option (list Z) :=
  if (step =? 0)%Z then None
  else
    let n := if (0 <? step)%Z then ((stop - start + step - 1) / step)%Z
             else ((start - stop - step - 1) / (- step))%Z in
    Some (map (fun k => (start + Z.of_nat k * step)%Z) (seq 0 (Z.to_nat n))).

Record Chunk : Type :=
  { x1 : Z; x2 : Z; y1 : Z; y2 : Z;
    parent_bounds : Bounds;
    bounds : Bounds;
    indices : list (Z * Z) }.

Definition Chunk_init (xrange yrange : Z * Z) (parent : Bounds) : option Chunk :=
  let '(x1, x2) := xrange in
  let '(y1, y2) := yrange in
  let cs := cell_size parent in
  let gs := group_size parent in
  let minx' := inject_Z x1 * cs + minx parent in
  let miny' := inject_Z y1 * cs + miny parent in
  let maxx' := (inject_Z x2 + 1) * cs + minx parent in
  let maxy' := (inject_Z y2 + 1) * cs + miny parent in
  b ← Bounds_init minx' miny' maxx' maxy' cs gs;
  Some {| x1 := x1; x2 := x2; y1 := y1; y2 := y2;
          parent_bounds := parent;
          bounds := b;
          indices := flat_map (fun i => map (fun j => (i, j)) (py_range y1 (y2 + 1)))
                              (py_range x1 (x2 + 1)) |}.

(** [Bounds.chunk]: the chunks the generator yields, or [None] when
    running it raises. *)
Definition chunk (self : Bounds) : option (list Chunk) :=
  per_i ←
    mapM (fun i =>
            js ← py_range_step 0 (yi self) (group_size self);
            mapM (fun j =>
                    let top := Z.min (j + group_size self - 1) (yi self) in
                    Chunk_init (i, i) (j, top) self) js)
         (py_range 0 (xi self));
  Some (List.concat per_i).

Record Point : Type := { PX : Q; PY : Q; PZ : Q }.

(** One written cell: its index, its [count] and its [Z] values. *)
Record Written : Type :=
  { dx : Z; dy : Z; w_count : nat; w_Z : list Q }.

(** The loop of [arrange_data]: for each index pair of the chunk, the Z
    values of the points whose floored cell index is that pair; the cell is
    listed in [dx], [dy] and [count] when [add_data.any()], that is when
    some Z value is nonzero.  (How the slices are then packed into the
    object array [dd['Z']], and the int32 cast of the indices, are not part
    of this definition.) *)
Definition arrange_data (points : list Point) (chunk : Chunk) (bounds : Bounds)
    : list Written :=
  let xis := fun p => Qfloor ((PX p - minx bounds) / cell_size bounds) in
  let yis := fun p => Qfloor ((PY p - miny bounds) / cell_size bounds) in
  flat_map
    (fun '(x, y) =>
       let add_data :=
         map PZ (List.filter (fun p => (xis p =? x)%Z && (yis p =? y)%Z) points) in
       if existsb (fun z => negb (Qeq_bool z 0)) add_data
       then [{| dx := x; dy := y; w_count := length add_data; w_Z := add_data |}]
       else [])
    (indices chunk).

End Main.

(** * Properties *)

Import Np Metric.

Local Open Scope Q_scope.

(** ** Mode *)


Lemma m_mode_spread (data : list Q) (minv maxv : Q) :
  np_min data = Some minv -> np_max data = Some maxv -> ~ minv == maxv ->
  m_mode data
  = Some (minv + inject_Z (Z.of_nat (np_argmax data)) * (maxv - minv) / (64 - 1)).
Proof.
  intros Hmin Hmax Hne. unfold m_mode. rewrite Hmax, Hmin. simpl.
  destruct (Qeq_bool minv maxv) eqn:E; [|reflexivity].
  apply Qeq_bool_iff in E. contradiction.
Qed.

(** C1 (code defect).  On the vector 1, 5, 5, 5, 2 the histogram over
    [1, 5] has its highest count (three points) in the last bin, so the mode
    the specification describes is 5; [m_mode] multiplies the bin width by
    the position of the largest element in the raw data (index 1) and
    returns 1 + 1 * 4 / 63 = 67/63. *)
Theorem m_mode_indexes_raw_data :
  np_argmax [1; 5; 5; 5; 2] = 1%nat /\
  argmax_counts (np_histogram [1; 5; 5; 5; 2] 64 1 5) = 63%nat /\
  (exists r, m_mode [1; 5; 5; 5; 2] = Some r /\ r == 67 # 63) /\
  (exists r, mode_spec [1; 5; 5; 5; 2] = Some r /\ r == 5).
Proof.
  split; [reflexivity|]. split; [vm_compute; reflexivity|].
  split; eexists; (split; [vm_compute; reflexivity | reflexivity]).
Qed.

(** ** Arrange, metrics and write *)

Module ShatterProps.
Import Shatter.

Lemma groupby_lookup (rs : list Row) (k : Z * Z) :
  groupby rs !! k
  = match List.filter (fun r => bool_decide (cell_key r = k)) rs with
    | [] => None
    | l => Some l
    end.
Proof.
  induction rs as [|r rs IH]; simpl.
  - apply lookup_empty.
  - rewrite lookup_insert. case_decide as Hk.
    + subst k. rewrite bool_decide_eq_true_2 by reflexivity.
      rewrite IH. now destruct (List.filter _ rs).
    + rewrite bool_decide_eq_false_2 by assumption. exact IH.
Qed.

Lemma groupby_member (rs l : list Row) (k : Z * Z) (r : Row) :
  groupby rs !! k = Some l -> (In r l <-> In r rs /\ cell_key r = k).
Proof.
  rewrite groupby_lookup. intros H.
  assert (l = List.filter (fun r => bool_decide (cell_key r = k)) rs) as ->.
  { destruct (List.filter _ rs); congruence. }
  rewrite filter_In, bool_decide_eq_true. reflexivity.
Qed.

Lemma groupby_complete (rs : list Row) (r : Row) :
  In r rs -> exists l, groupby rs !! cell_key r = Some l /\ In r l.
Proof.
  intros Hin. rewrite groupby_lookup.
  assert (In r (List.filter (fun r' => bool_decide (cell_key r' = cell_key r)) rs)) as H.
  { apply filter_In. split; [assumption|]. now apply bool_decide_eq_true. }
  destruct (List.filter _ rs) as [|a l] eqn:E; [destruct H|].
  exists (a :: l). split; [reflexivity | assumption].
Qed.

Lemma boundary_filters (leaf : Extents) (rs : list Row) :
  List.filter (fun r => Qltb (r "X"%string) (maxx (bounds leaf)))
    (List.filter (fun r => Qltb (r "Y"%string) (maxy (bounds leaf))) rs)
  = List.filter (kept_by_boundary leaf) rs.
Proof.
  induction rs as [|r rs IH]; simpl; [reflexivity|]. unfold kept_by_boundary at 1.
  destruct (Qltb (r "Y"%string) _); simpl; [|exact IH].
  destruct (Qltb (r "X"%string) _); simpl; now rewrite IH.
Qed.

Lemma Qltb_lt (a b : Q) : Qltb a b = true <-> a < b.
Proof.
  unfold Qltb. rewrite negb_true_iff, <- not_true_iff_false, Qle_bool_iff.
  split; [apply Qnot_le_lt | apply Qlt_not_le].
Qed.

Lemma kept_by_boundary_spec (leaf : Extents) (r : Row) :
  kept_by_boundary leaf r = true
  <-> r "Y"%string < maxy (bounds leaf) /\ r "X"%string < maxx (bounds leaf).
Proof. unfold kept_by_boundary. now rewrite andb_true_iff, !Qltb_lt. Qed.

(** What [arrange] returns once its guards have passed. *)
Lemma arrange_Some (df : DataFrame) (leaf : Extents) (attrs : list string)
    (g : GroupBy) :
  arrange (Some df) leaf attrs = Ok (Some g) ->
  g = {| g_columns := attrs ++ ["xi"; "yi"]%string;
         groups := groupby (map floor_index
                              (List.filter (kept_by_boundary leaf) (rows df))) |}.
Proof.
  unfold arrange.
  destruct (size df =? 0)%nat; [discriminate|].
  destruct (negb (has_column "Y" _)); [discriminate|].
  destruct (negb (has_column "X" _)); [discriminate|].
  destruct (negb (forallb _ _)); [discriminate|].
  destruct (has_column "xi" attrs || has_column "yi" attrs); [discriminate|].
  rewrite boundary_filters. congruence.
Qed.

(** C8.  Tile ownership is half-open.  In the grouping [arrange] returns,
    no point with Y >= tile.maxy or X >= tile.maxx appears, every point that
    appears has Y < tile.maxy and X < tile.maxx, and every point of the
    batch below both bounds appears in the group of its cell. *)
Theorem arrange_half_open (df : DataFrame) (leaf : Extents)
    (attrs : list string) (g : GroupBy) :
  arrange (Some df) leaf attrs = Ok (Some g) ->
  (forall r, In r (rows df) ->
     maxy (bounds leaf) <= r "Y"%string \/ maxx (bounds leaf) <= r "X"%string ->
     forall key rs, groups g !! key = Some rs -> ~ In (floor_index r) rs) /\
  (forall key rs r', groups g !! key = Some rs -> In r' rs ->
     r' "Y"%string < maxy (bounds leaf) /\ r' "X"%string < maxx (bounds leaf) /\
     exists r, In r (rows df) /\ r' = floor_index r) /\
  (forall r, In r (rows df) ->
     r "Y"%string < maxy (bounds leaf) -> r "X"%string < maxx (bounds leaf) ->
     exists rs, groups g !! cell_key (floor_index r) = Some rs /\ In (floor_index r) rs).
Proof.
  intros Harr. apply arrange_Some in Harr. subst g. simpl.
  assert (forall key rs r', groupby (map floor_index
              (List.filter (kept_by_boundary leaf) (rows df))) !! key = Some rs ->
            In r' rs ->
            r' "Y"%string < maxy (bounds leaf) /\ r' "X"%string < maxx (bounds leaf) /\
            exists r, In r (rows df) /\ r' = floor_index r) as Hkept.
  { intros key rs r' Hlook Hin.
    apply (groupby_member _ _ _ r' Hlook) in Hin. destruct Hin as [Hin _].
    apply in_map_iff in Hin. destruct Hin as (r & <- & Hr).
    apply filter_In in Hr. destruct Hr as [Hr Hb].
    apply kept_by_boundary_spec in Hb. destruct Hb as [Hy Hx].
    split; [exact Hy|]. split; [exact Hx|]. now exists r. }
  split; [|split].
  - intros r _ Hout key rs Hlook Hin.
    destruct (Hkept key rs _ Hlook Hin) as (Hy & Hx & _).
    change (floor_index r "Y"%string) with (r "Y"%string) in Hy.
    change (floor_index r "X"%string) with (r "X"%string) in Hx.
    destruct Hout as [Hout | Hout]; [now apply (Qlt_not_le _ _ Hy) | now apply (Qlt_not_le _ _ Hx)].
  - exact Hkept.
  - intros r Hin Hy Hx. apply groupby_complete. apply in_map.
    apply filter_In. split; [assumption|]. now apply kept_by_boundary_spec.
Qed.

Lemma arrange_half_open_witness :
  exists g, arrange (Some two_points) unit_leaf ["Z"%string] = Ok (Some g) /\
    (forall key rs, groups g !! key = Some rs -> ~ In (floor_index edge_point) rs) /\
    (exists rs, groups g !! (0, 0)%Z = Some rs /\ In (floor_index inner_point) rs).
Proof.
  eexists. split; [reflexivity|].
  destruct (arrange_half_open two_points unit_leaf ["Z"%string] _ eq_refl)
    as (Hout & _ & Hin).
  split.
  - apply Hout.
    + right. left. reflexivity.
    + left. discriminate.
  - apply (Hin inner_point).
    + left. reflexivity.
    + reflexivity.
    + reflexivity.
Defined.

(** What does short-circuit: an absent batch, or one with no point as
    read, makes [arrange] return None, and None passes through
    [get_metrics] and [write]. *)
Lemma None_passes_through (V : Type) (leaf : Extents) (attrs : list string)
    (cfg : StorageConfig V) (tdb : Store V) :
  arrange None leaf attrs = Ok None /\
  (forall df, size df = 0%nat -> arrange (Some df) leaf attrs = Ok None) /\
  get_metrics None cfg = Ok None /\
  write None tdb = Ok (tdb, 0%nat).
Proof.
  repeat split. intros df Hsize. unfold arrange. now rewrite Hsize.
Qed.

(** C4 (code defect).  [arrange] tests for an empty batch before it
    filters.  The batch whose only point lies on the tile's upper Y edge
    holds a point as read and none after the boundary filter; [arrange]
    returns a grouping without groups instead of None, [get_metrics] turns
    it into a table without rows, and [write] raises on that table instead
    of returning 0. *)
Theorem emptied_batch_is_not_None :
  rows edge_only <> [] /\
  List.filter (kept_by_boundary unit_leaf) (rows edge_only) = [] /\
  arrange (Some edge_only) unit_leaf ["Z"%string] <> Ok None /\
  exists g,
    arrange (Some edge_only) unit_leaf ["Z"%string] = Ok (Some g) /\
    groups g = ∅ /\
    get_metrics (Some g) mean_of_Z = Ok (Some ∅) /\
    write (Some (∅ : gmap (Z * Z) (CellRow Q))) [] = Raised AttributeError.
Proof.
  split; [discriminate|]. split; [reflexivity|]. split.
  - vm_compute. discriminate.
  - eexists. split; [reflexivity|]. split; [reflexivity|].
    split; [|reflexivity].
    unfold get_metrics. simpl. now rewrite fmap_empty.
Qed.

Lemma agg_list_lookup (cols : list string) (rs : list Row) (a : string)
    (v : list Q) :
  agg_list cols rs !! a = Some v -> v = column_of a rs.
Proof.
  unfold agg_list. intros H. apply elem_of_list_to_map_2 in H.
  apply list_elem_of_In, in_map_iff in H. destruct H as (c & Hc & _).
  congruence.
Qed.

Lemma agg_list_column (cols : list string) (rs : list Row) (a : string) :
  has_column a cols = true -> agg_list cols rs !! a = Some (column_of a rs).
Proof.
  unfold agg_list. induction cols as [|c cols IH]; simpl; [discriminate|].
  intros H. rewrite lookup_insert. case_decide as Hc.
  - now subst c.
  - apply orb_true_iff in H. destruct H as [H | H].
    + apply String.eqb_eq in H. congruence.
    + now apply IH.
Qed.

Lemma column_of_length (c : string) (rs : list Row) :
  length (column_of c rs) = length rs.
Proof. unfold column_of. apply List.length_map. Qed.

(** C9.  In the table [get_metrics] returns, the [count] of each cell is
    the length of each raw attribute vector stored for that cell. *)
Theorem count_is_vector_length (V : Type) (data_in : option GroupBy)
    (cfg : StorageConfig V) (t : gmap (Z * Z) (CellRow V)) :
  get_metrics data_in cfg = Ok (Some t) ->
  forall key row, t !! key = Some row ->
  forall a v, raw row !! a = Some v -> count row = length v.
Proof.
  unfold get_metrics. destruct data_in as [g|]; [|discriminate].
  destruct (negb (forallb _ _)); [discriminate|].
  destruct (has_column "Z" (value_columns g)) eqn:HZ; simpl; [|discriminate].
  intros Ht key row Hrow a v Hv. injection Ht as <-.
  rewrite lookup_fmap in Hrow.
  destruct (groups g !! key) as [rs|]; simpl in Hrow; [|discriminate].
  injection Hrow as <-. simpl in *.
  apply agg_list_lookup in Hv. subst v.
  rewrite (agg_list_column _ rs _ HZ). simpl.
  now rewrite !column_of_length.
Qed.

Lemma count_is_vector_length_witness :
  exists t,
    get_metrics (Some one_cell) mean_of_Z = Ok (Some t) /\
    forall key row, t !! key = Some row ->
    forall a v, raw row !! a = Some v -> count row = length v.
Proof.
  eexists. split; [reflexivity|].
  apply (count_is_vector_length Q (Some one_cell) mean_of_Z _ eq_refl).
Defined.

End ShatterProps.

(** ** Chunks *)

Module MainProps.
Import Main.

Lemma In_py_range (a b z : Z) : In z (py_range a b) <-> (a <= z < b)%Z.
Proof.
  unfold py_range. rewrite in_map_iff. split.
  - intros (k & <- & Hk). apply in_seq in Hk. lia.
  - intros Hz. exists (Z.to_nat (z - a)). split; [lia|]. apply in_seq. lia.
Qed.

Lemma In_py_range_step (start stop step z : Z) (l : list Z) :
  (0 < step)%Z -> py_range_step start stop step = Some l -> In z l ->
  (start <= z < stop)%Z.
Proof.
  unfold py_range_step. intros Hstep H Hin.
  destruct (Z.eqb_spec step 0); [lia|].
  destruct (Z.ltb_spec 0 step); [|lia].
  injection H as <-. apply in_map_iff in Hin. destruct Hin as (k & <- & Hk).
  apply in_seq in Hk.
  assert (Z.of_nat k < (stop - start + step - 1) / step)%Z as Hlt by lia.
  assert (Z.of_nat k + 1 <= (stop - start + step - 1) / step)%Z as Hle by lia.
  assert ((Z.of_nat k + 1) * step <= stop - start + step - 1)%Z.
  { etransitivity; [apply Z.mul_le_mono_nonneg_r; [lia | exact Hle]|].
    rewrite Z.mul_comm. apply Z.mul_div_le. lia. }
  nia.
Qed.

Lemma mapM_In {A B} (f : A -> option B) (l : list A) (k : list B) (y : B) :
  mapM f l = Some k -> In y k -> exists x, In x l /\ f x = Some y.
Proof.
  intros H. apply mapM_Some_1 in H. induction H as [|x y' l k Hxy _ IH].
  - intros [].
  - intros [<- | Hin].
    + exists x. split; [now left | assumption].
    + destruct (IH Hin) as (x' & Hx' & Hf). exists x'. split; [now right | assumption].
Qed.

(** How far the index pairs of a chunk reach: x stays below [xi], while y
    may equal [yi], the bound [top] is clamped to. *)
Lemma chunk_indices_range (self : Bounds) (cs : list Chunk) (c : Chunk)
    (x y : Z) :
  (0 < group_size self)%Z ->
  chunk self = Some cs -> In c cs -> In (x, y) (indices c) ->
  (0 <= x < xi self)%Z /\ (0 <= y <= yi self)%Z.
Proof.
  intros Hgs Hchunk Hc Hxy. unfold chunk in Hchunk.
  destruct (mapM _ (py_range 0 (xi self))) as [per_i|] eqn:Hper; [|discriminate].
  simpl in Hchunk. injection Hchunk as <-.
  apply in_concat in Hc. destruct Hc as (row & Hrow & Hc).
  destruct (mapM_In _ _ _ _ Hper Hrow) as (i & Hi & Hfi).
  destruct (py_range_step 0 (yi self) (group_size self)) as [js|] eqn:Hjs;
    [|discriminate].
  simpl in Hfi. destruct (mapM_In _ _ _ _ Hfi Hc) as (j & Hj & Hinit).
  apply In_py_range in Hi.
  apply (In_py_range_step _ _ _ _ _ Hgs Hjs) in Hj.
  unfold Chunk_init in Hinit.
  destruct (Bounds_init _ _ _ _ _ _); [|discriminate].
  simpl in Hinit. injection Hinit as <-. simpl in Hxy.
  apply in_flat_map in Hxy. destruct Hxy as (i' & Hi' & Hxy).
  apply in_map_iff in Hxy. destruct Hxy as (j' & E & Hj').
  injection E as <- <-.
  apply In_py_range in Hi', Hj'. lia.
Qed.

(** Every cell [arrange_data] writes is one of the chunk's index pairs. *)
Lemma arrange_data_writes_indices (points : list Point) (c : Chunk)
    (b : Bounds) (w : Written) :
  In w (arrange_data points c b) -> In (dx w, dy w) (indices c).
Proof.
  unfold arrange_data. intros H. apply in_flat_map in H.
  destruct H as ([x y] & Hxy & Hw).
  destruct (existsb _ _); [|destruct Hw].
  destruct Hw as [<- | []]. exact Hxy.
Qed.

(** C2 (code defect).  Bounds 0,0 .. 1,1 with cell size 1 and group size 3
    give a 1 x 1 grid.  [chunk] yields one chunk, whose index pairs are
    (0,0) and (0,1), since [top] is clamped to [yi] and not to [yi - 1];
    a point with Y on the upper edge of the bounds is then written to cell
    (0,1), whose y index equals yi_count. *)
Theorem chunk_index_reaches_yi_count :
  exists b c,
    Bounds_init 0 0 1 1 1 3 = Some b /\
    xi b = 1%Z /\ yi b = 1%Z /\
    chunk b = Some [c] /\
    indices c = [(0, 0); (0, 1)]%Z /\
    arrange_data [{| PX := 1 # 2; PY := 1; PZ := 5 |}] c b
    = [{| dx := 0; dy := 1; w_count := 1; w_Z := [5] |}].
Proof.
  eexists. eexists. split; [reflexivity|].
  split; [reflexivity|]. split; [reflexivity|].
  split; [reflexivity|]. split; reflexivity.
Qed.

End MainProps.

(** ** A cell whose values are all equal *)

Section ConstantCell.

Variable c : Q.

Lemma fold_max_constant (xs : list Q) (x : Q) :
  x == c -> Forall (fun x => x == c) xs -> fold_left Qmax xs x == c.
Proof.
  revert x. induction xs as [|a xs IH]; intros x Hx Hxs; simpl; [exact Hx|].
  inversion Hxs as [|? ? Ha Hxs']; subst. apply IH; [|assumption].
  rewrite Hx, Ha. apply Q.max_id.
Qed.

Lemma fold_min_constant (xs : list Q) (x : Q) :
  x == c -> Forall (fun x => x == c) xs -> fold_left Qmin xs x == c.
Proof.
  revert x. induction xs as [|a xs IH]; intros x Hx Hxs; simpl; [exact Hx|].
  inversion Hxs as [|? ? Ha Hxs']; subst. apply IH; [|assumption].
  rewrite Hx, Ha. apply Q.min_id.
Qed.

Lemma len_cons (x : Q) (l : list Q) : len (x :: l) == 1 + len l.
Proof.
  unfold len. simpl length. rewrite Nat2Z.inj_succ, <- Z.add_1_l.
  rewrite inject_Z_plus. reflexivity.
Qed.

Lemma len_pos (l : list Q) : l <> [] -> 0 < len l.
Proof.
  intros Hl. unfold len. change 0 with (inject_Z 0). rewrite <- Zlt_Qlt.
  destruct l; [contradiction | simpl; lia].
Qed.

Lemma np_sum_constant (l : list Q) : Forall (fun x => x == c) l -> np_sum l == len l * c.
Proof.
  induction 1 as [|x l Hx _ IH]; simpl.
  - unfold len. simpl. ring.
  - rewrite len_cons, IH, Hx. ring.
Qed.

Lemma np_mean_constant (l : list Q) : l <> [] -> Forall (fun x => x == c) l -> np_mean l == c.
Proof.
  intros Hl Hall. unfold np_mean. rewrite (np_sum_constant l Hall).
  pose proof (len_pos l Hl) as Hpos. field. intros E. rewrite E in Hpos.
  now apply (Qlt_irrefl 0).
Qed.

Lemma insert_sorted_all (P : Q -> Prop) (x : Q) (l : list Q) :
  P x -> Forall P l -> Forall P (insert_sorted x l).
Proof.
  intros Hx. induction 1 as [|y l Hy Hl IH]; simpl.
  - now constructor.
  - destruct (Qle_bool x y); repeat constructor; assumption.
Qed.

Lemma np_sort_all (P : Q -> Prop) (l : list Q) :
  Forall P l -> Forall P (np_sort l).
Proof.
  unfold np_sort. induction 1; simpl; [constructor|].
  now apply insert_sorted_all.
Qed.

Lemma insert_sorted_length (x : Q) (l : list Q) :
  length (insert_sorted x l) = S (length l).
Proof.
  induction l as [|y l IH]; simpl; [reflexivity|].
  destruct (Qle_bool x y); simpl; now rewrite ?IH.
Qed.

Lemma np_sort_length (l : list Q) : length (np_sort l) = length l.
Proof.
  unfold np_sort. induction l; simpl; [reflexivity|].
  now rewrite insert_sorted_length, IHl.
Qed.

Lemma nth_all (P : Q -> Prop) (l : list Q) (i : nat) :
  Forall P l -> (i < length l)%nat -> P (nth i l 0).
Proof.
  intros Hall Hi. eapply Forall_forall; [exact Hall|].
  apply list_elem_of_In. now apply nth_In.
Qed.

Lemma np_median_constant (l : list Q) : l <> [] -> Forall (fun x => x == c) l -> np_median l == c.
Proof.
  intros Hl Hall. unfold np_median.
  assert (0 < length l)%nat as Hlen by (destruct l; [contradiction | simpl; lia]).
  pose proof (np_sort_all _ l Hall) as Hs.
  assert (length l / 2 < length l)%nat as Hmid by (apply Nat.div_lt; lia).
  destruct (Nat.even (length l)).
  - rewrite (nth_all _ _ (length l / 2 - 1) Hs) by (rewrite np_sort_length; lia).
    rewrite (nth_all _ _ (length l / 2) Hs) by (rewrite np_sort_length; lia).
    field.
  - apply (nth_all _ _ _ Hs). rewrite np_sort_length; lia.
Qed.

End ConstantCell.

(** ** Profile area *)

Lemma fold_max_upper (xs : list Q) (x : Q) :
  x <= fold_left Qmax xs x /\ Forall (fun a => a <= fold_left Qmax xs x) xs.
Proof.
  revert x. induction xs as [|a xs IH]; intros x; simpl.
  - split; [apply Qle_refl | constructor].
  - destruct (IH (Qmax x a)) as [H1 H2]. split; [|constructor].
    + eapply Qle_trans; [apply Q.le_max_l | exact H1].
    + eapply Qle_trans; [apply Q.le_max_r | exact H1].
    + exact H2.
Qed.

Lemma np_max_upper (data : list Q) (M : Q) :
  np_max data = Some M -> Forall (fun a => a <= M) data.
Proof.
  destruct data as [|x xs]; simpl; [discriminate|]. intros H. injection H as <-.
  destruct (fold_max_upper xs x). now constructor.
Qed.

(** A percentile between 0 and 100 of a nonempty vector does not exceed
    any upper bound of its values. *)
Lemma np_percentile_upper (data : list Q) (M : Q) (q : Z) :
  data <> [] -> (0 <= q <= 100)%Z -> Forall (fun a => a <= M) data ->
  np_percentile data q <= M.
Proof.
  intros Hne Hq Hall. unfold np_percentile.
  assert (0 < length data)%nat as Hlen by (destruct data; [contradiction | simpl; lia]).
  pose proof (np_sort_all _ data Hall) as Hs.
  set (n1 := inject_Z (Z.of_nat (length data - 1))).
  set (virt := inject_Z q / 100 * n1).
  assert (0 <= n1) as Hn1.
  { unfold n1. change 0 with (inject_Z 0). rewrite <- Zle_Qle. lia. }
  assert (0 <= inject_Z q /\ inject_Z q <= 100) as [Hq0 Hq1].
  { change 0 with (inject_Z 0). change 100 with (inject_Z 100).
    rewrite <- !Zle_Qle. lia. }
  assert (0 <= virt /\ virt <= n1) as [Hv0 Hv1].
  { unfold virt. split.
    - apply Qmult_le_0_compat; [|assumption].
      apply Qle_shift_div_l; [reflexivity|]. now rewrite Qmult_0_l.
    - assert (inject_Z q / 100 <= 1) as H1.
      { apply Qle_shift_div_r; [reflexivity|]. now rewrite Qmult_1_l. }
      apply Qle_trans with (1 * n1); [now apply Qmult_le_compat_r|].
      rewrite Qmult_1_l. apply Qle_refl. }
  assert (0 <= Qfloor virt <= Z.of_nat (length data - 1))%Z as Hlo.
  { split.
    - change 0%Z with (Qfloor 0). now apply Qfloor_resp_le.
    - rewrite <- (Qfloor_Z (Z.of_nat (length data - 1))). now apply Qfloor_resp_le. }
  set (frac := virt - inject_Z (Qfloor virt)).
  assert (0 <= frac /\ frac <= 1) as [Hf0 Hf1].
  { unfold frac. pose proof (Qfloor_le virt) as H1.
    pose proof (Qlt_floor virt) as H2. rewrite inject_Z_plus in H2.
    change (inject_Z 1) with 1 in H2. split; lra. }
  set (a := nth (Z.to_nat (Qfloor virt)) (np_sort data) 0).
  set (b := nth (Nat.min (Z.to_nat (Qfloor virt) + 1) (length data - 1)) (np_sort data) 0).
  assert (a <= M) as Ha.
  { apply (nth_all (fun x => x <= M) _ _ Hs). rewrite np_sort_length. lia. }
  assert (b <= M) as Hb.
  { apply (nth_all (fun x => x <= M) _ _ Hs). rewrite np_sort_length. lia. }
  assert (0 <= (M - a) * (1 - frac)) as P1 by (apply Qmult_le_0_compat; lra).
  assert (0 <= (M - b) * frac) as P2 by (apply Qmult_le_0_compat; lra).
  lra.
Qed.

Lemma fold_left_trapezoid (d : Q) (l : list Q) (init : Q) :
  fold_left (fun pa ip => pa + 2 * ip / d) l init
  == init + np_sum (map (fun ip => 2 * ip / d) l).
Proof.
  revert init. induction l as [|x l IH]; intros init; simpl.
  - ring.
  - rewrite IH. ring.
Qed.

Lemma percentile_99 (f : Z -> Q) : nth 98 (map f percents) 0 = f 99%Z.
Proof. reflexivity. Qed.

Lemma percentiles_1_97 (f : Z -> Q) :
  firstn 97 (map f percents) = map f (map Z.of_nat (seq 1 97)).
Proof. reflexivity. Qed.

(** The value of [m_profilearea]: the sentinel when the 99th percentile is
    not positive; otherwise the trapezoid sum that starts at
    p0 = max(min(data), 0) and whose loop visits the percentiles 1..97. *)
Lemma m_profilearea_value (data : list Q) :
  data <> [] ->
  (np_percentile data 99 <= 0 -> m_profilearea data = Some sentinel) /\
  (0 < np_percentile data 99 ->
     exists minv r,
       np_min data = Some minv /\ m_profilearea data = Some r /\
       r == trapezoid_upto data (Qmax minv 0) 97).
Proof.
  intros Hne. unfold m_profilearea.
  destruct (np_max data) as [M|] eqn:HM; [|destruct data; [contradiction | discriminate]].
  destruct (np_min data) as [m|] eqn:Hm; [|destruct data; [contradiction | discriminate]].
  cbv beta iota zeta delta [mbind option_bind].
  rewrite percentile_99, percentiles_1_97.
  pose proof (np_percentile_upper data M 99 Hne ltac:(lia) (np_max_upper _ _ HM)) as Hup.
  destruct (Qle_bool M 0) eqn:HM0.
  - apply Qle_bool_iff in HM0. split; [reflexivity|].
    intros Hpos. exfalso. apply (Qlt_not_le _ _ Hpos). now apply Qle_trans with M.
  - destruct (Qltb 0 (np_percentile data 99)) eqn:Hp.
    + apply ShatterProps.Qltb_lt in Hp. split.
      * intros Hle. exfalso. now apply (Qlt_not_le _ _ Hp).
      * intros _. exists m. eexists. split; [reflexivity|]. split; [reflexivity|].
        rewrite fold_left_trapezoid. unfold trapezoid_upto.
        rewrite !List.map_map. ring.
    + split; [reflexivity|]. intros Hpos.
      apply ShatterProps.Qltb_lt in Hpos. congruence.
Qed.

(** The start node.  On the vector 0, 100 the k-th percentile is k and
    the 99th is positive; the trapezoid over the percentiles 1..99 gives
    4900/99, while [m_profilearea], whose sum starts at p0 = 0 and stops
    at the 97th percentile, returns 9605/198. *)
Lemma m_profilearea_is_not_trapezoid_1_99 :
  0 < np_percentile [0; 100] 99 /\
  profilearea_spec [0; 100] == 4900 # 99 /\
  exists r, m_profilearea [0; 100] = Some r /\ r == 9605 # 198 /\
            ~ r == profilearea_spec [0; 100].
Proof.
  split; [vm_compute; reflexivity|].
  split; [vm_compute; reflexivity|].
  eexists. split; [vm_compute; reflexivity|].
  split; [vm_compute; reflexivity|].
  vm_compute. discriminate.
Qed.

(** C5 (code defect).  On the vector 0, 0, 100 the start node
    p0 = max(min, 0) and the first percentile are both 0, so the sum of the
    code and the formula of the claim have the same first node; the 99th
    percentile is 98.  The composite trapezoid over the percentiles is 49/2.
    [m_profilearea] returns 2305/98: its loop over [p[:97]] leaves the
    98th percentile out, and the result falls short by exactly p98/p99. *)
Theorem m_profilearea_skips_p98 :
  0 < np_percentile [0; 0; 100] 99 /\
  Qmax 0 0 == np_percentile [0; 0; 100] 1 /\
  profilearea_spec [0; 0; 100] == 49 # 2 /\
  exists r,
    m_profilearea [0; 0; 100] = Some r /\ r == 2305 # 98 /\
    profilearea_spec [0; 0; 100] - r
    == np_percentile [0; 0; 100] 98 / np_percentile [0; 0; 100] 99.
Proof.
  split; [vm_compute; reflexivity|].
  split; [vm_compute; reflexivity|].
  split; [vm_compute; reflexivity|].
  eexists. split; [vm_compute; reflexivity|].
  split; vm_compute; reflexivity.
Qed.

(** ** Range of the reductions *)

Lemma Qmax_cases (x y : Q) : Qmax x y = x \/ Qmax x y = y.
Proof.
  unfold Qmax, GenericMinMax.gmax. destruct (x ?= y); auto.
Qed.

Lemma Qmin_cases (x y : Q) : Qmin x y = x \/ Qmin x y = y.
Proof.
  unfold Qmin, GenericMinMax.gmin. destruct (x ?= y); auto.
Qed.

Lemma fold_max_attained (xs : list Q) (x : Q) : In (fold_left Qmax xs x) (x :: xs).
Proof.
  revert x. induction xs as [|a xs IH]; intros x; simpl; [now left|].
  destruct (IH (Qmax x a)) as [H | H]; [|now right; right].
  rewrite <- H. destruct (Qmax_cases x a) as [-> | ->]; [now left | now right; left].
Qed.

Lemma fold_min_attained (xs : list Q) (x : Q) : In (fold_left Qmin xs x) (x :: xs).
Proof.
  revert x. induction xs as [|a xs IH]; intros x; simpl; [now left|].
  destruct (IH (Qmin x a)) as [H | H]; [|now right; right].
  rewrite <- H. destruct (Qmin_cases x a) as [-> | ->]; [now left | now right; left].
Qed.

Lemma fold_min_lower (xs : list Q) (x : Q) :
  fold_left Qmin xs x <= x /\ Forall (fun a => fold_left Qmin xs x <= a) xs.
Proof.
  revert x. induction xs as [|a xs IH]; intros x; simpl.
  - split; [apply Qle_refl | constructor].
  - destruct (IH (Qmin x a)) as [H1 H2]. split; [|constructor].
    + eapply Qle_trans; [exact H1 | apply Q.le_min_l].
    + eapply Qle_trans; [exact H1 | apply Q.le_min_r].
    + exact H2.
Qed.

Lemma np_min_lower (data : list Q) (m : Q) :
  np_min data = Some m -> Forall (fun a => m <= a) data.
Proof.
  destruct data as [|x xs]; simpl; [discriminate|]. intros H. injection H as <-.
  destruct (fold_min_lower xs x). now constructor.
Qed.

Lemma np_min_max_values (data : list Q) :
  data <> [] ->
  exists lo hi,
    np_min data = Some lo /\ np_max data = Some hi /\
    Forall (fun x => lo <= x /\ x <= hi) data.
Proof.
  intros Hne. destruct data as [|x xs]; [contradiction|].
  exists (fold_left Qmin xs x), (fold_left Qmax xs x).
  split; [reflexivity|]. split; [reflexivity|].
  pose proof (np_min_lower (x :: xs) _ eq_refl) as Hlo.
  pose proof (np_max_upper (x :: xs) _ eq_refl) as Hhi.
  apply Forall_forall. intros y Hy. split.
  - exact (proj1 (Forall_forall _ _) Hlo y Hy).
  - exact (proj1 (Forall_forall _ _) Hhi y Hy).
Qed.

(** X1.  On a nonempty vector [m_min] and [m_max] return values of the
    vector, and every value lies between them. *)
Theorem min_max_bracket (data : list Q) :
  data <> [] ->
  exists lo hi,
    m_min data = Some lo /\ m_max data = Some hi /\
    In lo data /\ In hi data /\
    Forall (fun x => lo <= x /\ x <= hi) data.
Proof.
  intros Hne. destruct (np_min_max_values data Hne) as (lo & hi & Hlo & Hhi & Hall).
  exists lo, hi. unfold m_min, m_max.
  split; [exact Hlo|]. split; [exact Hhi|].
  destruct data as [|x xs]; [contradiction|].
  simpl in Hlo, Hhi. injection Hlo as <-. injection Hhi as <-.
  split; [apply fold_min_attained|]. split; [apply fold_max_attained|].
  exact Hall.
Qed.

Lemma min_max_bracket_witness :
  exists lo hi, m_min [3; 1; 2] = Some lo /\ m_max [3; 1; 2] = Some hi /\
                In lo [3; 1; 2] /\ In hi [3; 1; 2].
Proof.
  destruct (min_max_bracket [3; 1; 2] ltac:(discriminate))
    as (lo & hi & H1 & H2 & H3 & H4 & _).
  exists lo, hi. repeat split; assumption.
Defined.

Lemma np_sum_lower (m : Q) (l : list Q) :
  Forall (fun a => m <= a) l -> len l * m <= np_sum l.
Proof.
  induction 1 as [|x l Hx _ IH]; simpl.
  - change (len []) with 0. lra.
  - rewrite len_cons. lra.
Qed.

Lemma np_sum_upper (M : Q) (l : list Q) :
  Forall (fun a => a <= M) l -> np_sum l <= len l * M.
Proof.
  induction 1 as [|x l Hx _ IH]; simpl.
  - change (len []) with 0. lra.
  - rewrite len_cons. lra.
Qed.

(** ** Counts *)

Lemma count_above_le (t : Q) (l : list Q) : (count_above t l <= length l)%nat.
Proof.
  unfold count_above. induction l as [|x l IH]; simpl; [lia|].
  destruct (Qltb t x); simpl; lia.
Qed.

Lemma count_fraction (k : nat) (l : list Q) :
  l <> [] -> (k <= length l)%nat ->
  0 <= inject_Z (Z.of_nat k) / len l /\ inject_Z (Z.of_nat k) / len l <= 1 /\
  ((k < length l)%nat -> inject_Z (Z.of_nat k) / len l < 1).
Proof.
  intros Hne Hk. pose proof (len_pos l Hne) as Hpos.
  assert (0 <= inject_Z (Z.of_nat k)) as H0.
  { change 0 with (inject_Z 0). rewrite <- Zle_Qle. lia. }
  split; [|split].
  - apply Qle_shift_div_l; [assumption | lra].
  - apply Qle_shift_div_r; [assumption|]. rewrite Qmult_1_l.
    unfold len. rewrite <- Zle_Qle. lia.
  - intros Hlt. apply Qlt_shift_div_r; [assumption|]. rewrite Qmult_1_l.
    unfold len. rewrite <- Zlt_Qlt. lia.
Qed.

(** X6.  The share of values above the mean, [m_abovemean], lies between
    0 and 1 on every nonempty vector. *)
Theorem m_abovemean_range (data : list Q) :
  data <> [] -> 0 <= m_abovemean data /\ m_abovemean data <= 1.
Proof.
  intros Hne. unfold m_abovemean.
  pose proof (count_above_le (np_mean data) data) as Hle.
  destruct (count_fraction _ data Hne Hle) as (H0 & H1 & _).
  split; assumption.
Qed.

Lemma m_abovemean_range_witness :
  0 <= m_abovemean [1; 2; 6] /\ m_abovemean [1; 2; 6] <= 1.
Proof. apply m_abovemean_range. discriminate. Defined.

(** X7.  [m_allcover], the share of values above the fixed threshold 2,
    lies between 0 and 1; it is 0 when no value exceeds 2. *)
Theorem m_allcover_range (data : list Q) :
  data <> [] ->
  0 <= m_allcover data /\ m_allcover data <= 1 /\
  (Forall (fun x => x <= 2) data -> m_allcover data == 0).
Proof.
  intros Hne. unfold m_allcover.
  pose proof (count_above_le 2 data) as Hle.
  destruct (count_fraction _ data Hne Hle) as (H0 & H1 & _).
  split; [exact H0|]. split; [exact H1|].
  intros Hall.
  assert (count_above 2 data = O) as ->.
  { unfold count_above. clear -Hall. induction Hall as [|x l Hx _ IH]; simpl; [reflexivity|].
    destruct (Qltb 2 x) eqn:E; [|exact IH].
    apply ShatterProps.Qltb_lt in E. exfalso. now apply (Qlt_not_le _ _ E). }
  pose proof (len_pos data Hne). simpl. field. lra.
Qed.

Lemma m_allcover_range_witness :
  0 <= m_allcover [1; 2; 6] /\ m_allcover [1; 2; 6] <= 1.
Proof.
  destruct (m_allcover_range [1; 2; 6] ltac:(discriminate)) as (H0 & H1 & _).
  split; assumption.
Defined.

(** ** Percentiles *)

Lemma insert_sorted_sorted (x : Q) (l : list Q) :
  StronglySorted Qle l -> StronglySorted Qle (insert_sorted x l).
Proof.
  induction 1 as [|y l Hl IH Hy]; simpl.
  - repeat constructor.
  - destruct (Qle_bool x y) eqn:E.
    + apply Qle_bool_iff in E. constructor; [now constructor|].
      constructor; [assumption|].
      eapply Forall_impl; [exact Hy|]. intros z Hz. now apply Qle_trans with y.
    + constructor; [assumption|].
      apply insert_sorted_all; [|assumption].
      destruct (Qlt_le_dec x y) as [Hlt | Hle]; [|assumption].
      apply Qlt_le_weak in Hlt. apply Qle_bool_iff in Hlt. congruence.
Qed.

Lemma np_sort_sorted (l : list Q) : StronglySorted Qle (np_sort l).
Proof.
  unfold np_sort. induction l; simpl; [constructor|].
  now apply insert_sorted_sorted.
Qed.

Lemma sorted_nth (s : list Q) (i j : nat) :
  StronglySorted Qle s -> (i <= j)%nat -> (j < length s)%nat ->
  nth i s 0 <= nth j s 0.
Proof.
  intros Hs. revert i j. induction Hs as [|x s Hs IH Hx]; intros i j Hij Hj.
  - simpl in Hj. lia.
  - destruct i as [|i], j as [|j]; simpl in *; try lia.
    + apply Qle_refl.
    + apply (nth_all (fun z => x <= z) s j Hx). lia.
    + apply IH; lia.
Qed.

Lemma np_percentile_lerp (data : list Q) (q : Z) :
  np_percentile data q
  = lerp_at (np_sort data) (length data) (virtual_index (length data) q).
Proof. reflexivity. Qed.

Lemma virtual_index_range (n : nat) (q : Z) :
  (0 <= q <= 100)%Z ->
  0 <= virtual_index n q /\ virtual_index n q <= inject_Z (Z.of_nat (n - 1)).
Proof.
  intros Hq. unfold virtual_index.
  set (n1 := inject_Z (Z.of_nat (n - 1))).
  assert (0 <= n1) as Hn1.
  { unfold n1. change 0 with (inject_Z 0). rewrite <- Zle_Qle. lia. }
  assert (0 <= inject_Z q /\ inject_Z q <= 100) as [Hq0 Hq1].
  { change 0 with (inject_Z 0). change 100 with (inject_Z 100).
    rewrite <- !Zle_Qle. lia. }
  assert (0 <= inject_Z q / 100) as H0 by (apply Qle_shift_div_l; lra).
  assert (inject_Z q / 100 <= 1) as H1 by (apply Qle_shift_div_r; lra).
  split.
  - now apply Qmult_le_0_compat.
  - assert (0 <= (1 - inject_Z q / 100) * n1) by (apply Qmult_le_0_compat; lra).
    lra.
Qed.

Lemma virtual_index_mono (n : nat) (q1 q2 : Z) :
  (q1 <= q2)%Z -> virtual_index n q1 <= virtual_index n q2.
Proof.
  intros Hq. unfold virtual_index.
  set (n1 := inject_Z (Z.of_nat (n - 1))).
  assert (0 <= n1) as Hn1.
  { unfold n1. change 0 with (inject_Z 0). rewrite <- Zle_Qle. lia. }
  assert (inject_Z q1 <= inject_Z q2) as Hq' by (now rewrite <- Zle_Qle).
  assert (inject_Z q1 / 100 <= inject_Z q2 / 100) as H.
  { apply Qle_shift_div_l; [reflexivity|].
    assert (inject_Z q1 / 100 * 100 == inject_Z q1) as -> by (field; discriminate).
    assumption. }
  assert (0 <= (inject_Z q2 / 100 - inject_Z q1 / 100) * n1)
    by (apply Qmult_le_0_compat; lra).
  lra.
Qed.

Section Lerp.

Variable s : list Q.
Variable n : nat.
Hypothesis s_sorted : StronglySorted Qle s.
Hypothesis s_length : length s = n.
Hypothesis n_pos : (0 < n)%nat.

(** The floor and the fraction of a virtual index within the array. *)
Lemma floor_in_range (v : Q) :
  0 <= v -> v <= inject_Z (Z.of_nat (n - 1)) ->
  (0 <= Qfloor v <= Z.of_nat (n - 1))%Z /\
  0 <= v - inject_Z (Qfloor v) /\ v - inject_Z (Qfloor v) <= 1.
Proof.
  intros H0 H1. split; [split|].
  - change 0%Z with (Qfloor 0). now apply Qfloor_resp_le.
  - rewrite <- (Qfloor_Z (Z.of_nat (n - 1))). now apply Qfloor_resp_le.
  - pose proof (Qfloor_le v) as Hf. pose proof (Qlt_floor v) as Hc.
    rewrite inject_Z_plus in Hc. change (inject_Z 1) with 1 in Hc. split; lra.
Qed.

(** The interpolated value lies between the two order statistics around
    the virtual index. *)
Lemma lerp_between (v : Q) :
  0 <= v -> v <= inject_Z (Z.of_nat (n - 1)) ->
  nth (Z.to_nat (Qfloor v)) s 0 <= lerp_at s n v /\
  lerp_at s n v <= nth (Nat.min (Z.to_nat (Qfloor v) + 1) (n - 1)) s 0.
Proof.
  intros H0 H1. destruct (floor_in_range v H0 H1) as (Hlo & Hf0 & Hf1).
  unfold lerp_at.
  set (a := nth (Z.to_nat (Qfloor v)) s 0).
  set (b := nth (Nat.min (Z.to_nat (Qfloor v) + 1) (n - 1)) s 0).
  assert (a <= b) as Hab by (apply sorted_nth; [assumption | lia | lia]).
  assert (0 <= (b - a) * (v - inject_Z (Qfloor v))) by (apply Qmult_le_0_compat; lra).
  assert (0 <= (b - a) * (1 - (v - inject_Z (Qfloor v)))) by (apply Qmult_le_0_compat; lra).
  split; lra.
Qed.

Lemma lerp_mono (v1 v2 : Q) :
  0 <= v1 -> v1 <= v2 -> v2 <= inject_Z (Z.of_nat (n - 1)) ->
  lerp_at s n v1 <= lerp_at s n v2.
Proof.
  intros H0 H12 H2.
  assert (0 <= v2) as H0' by lra.
  assert (v1 <= inject_Z (Z.of_nat (n - 1))) as H1' by lra.
  destruct (floor_in_range v1 H0 H1') as (Hlo1 & Hf1 & _).
  destruct (floor_in_range v2 H0' H2) as (Hlo2 & Hf2 & _).
  pose proof (Qfloor_resp_le v1 v2 H12) as Hfl.
  destruct (Z.eq_dec (Qfloor v1) (Qfloor v2)) as [E | Hne].
  - unfold lerp_at. rewrite E.
    set (a := nth (Z.to_nat (Qfloor v2)) s 0).
    set (b := nth (Nat.min (Z.to_nat (Qfloor v2) + 1) (n - 1)) s 0).
    assert (a <= b) as Hab by (apply sorted_nth; [assumption | lia | lia]).
    assert (0 <= (b - a) * (v2 - v1)) by (apply Qmult_le_0_compat; lra).
    lra.
  - destruct (lerp_between v1 H0 H1') as [_ Hup].
    destruct (lerp_between v2 H0' H2) as [Hdown _].
    eapply Qle_trans; [exact Hup|]. eapply Qle_trans; [|exact Hdown].
    apply sorted_nth; [assumption | lia | lia].
Qed.

End Lerp.

(** Percentiles grow with the percentage. *)
Lemma np_percentile_mono (data : list Q) (q1 q2 : Z) :
  data <> [] -> (0 <= q1)%Z -> (q1 <= q2)%Z -> (q2 <= 100)%Z ->
  np_percentile data q1 <= np_percentile data q2.
Proof.
  intros Hne H0 H12 H2. rewrite !np_percentile_lerp.
  assert (0 < length data)%nat as Hlen by (destruct data; [contradiction | simpl; lia]).
  apply lerp_mono.
  - apply np_sort_sorted.
  - apply np_sort_length.
  - exact Hlen.
  - apply virtual_index_range. lia.
  - now apply virtual_index_mono.
  - apply virtual_index_range. lia.
Qed.

(** No percentile is below a lower bound of the values. *)
Lemma np_percentile_lower (data : list Q) (m : Q) (q : Z) :
  data <> [] -> (0 <= q <= 100)%Z -> Forall (fun a => m <= a) data ->
  m <= np_percentile data q.
Proof.
  intros Hne Hq Hall. rewrite np_percentile_lerp.
  assert (0 < length data)%nat as Hlen by (destruct data; [contradiction | simpl; lia]).
  destruct (virtual_index_range (length data) q Hq) as [H0 H1].
  destruct (lerp_between (np_sort data) (length data) (np_sort_sorted data)
              (np_sort_length data) Hlen _ H0 H1) as [Hdown _].
  eapply Qle_trans; [|exact Hdown].
  destruct (floor_in_range (length data) _ H0 H1) as (Hlo & _).
  apply (nth_all (fun z => m <= z)); [now apply np_sort_all|].
  rewrite np_sort_length. lia.
Qed.

(** X8.  The fifteen percentile metrics of a nonempty vector are ordered,
    p01 <= p05 <= ... <= p99, and all lie between the minimum and the
    maximum. *)
Theorem percentiles_ordered (data : list Q) :
  data <> [] ->
  exists lo hi,
    m_min data = Some lo /\ m_max data = Some hi /\
    lo <= m_p01 data /\ m_p01 data <= m_p05 data /\ m_p05 data <= m_p10 data /\
    m_p10 data <= m_p20 data /\ m_p20 data <= m_p25 data /\
    m_p25 data <= m_p30 data /\ m_p30 data <= m_p40 data /\
    m_p40 data <= m_p50 data /\ m_p50 data <= m_p60 data /\
    m_p60 data <= m_p70 data /\ m_p70 data <= m_p75 data /\
    m_p75 data <= m_p80 data /\ m_p80 data <= m_p90 data /\
    m_p90 data <= m_p95 data /\ m_p95 data <= m_p99 data /\
    m_p99 data <= hi.
Proof.
  intros Hne.
  destruct (np_min_max_values data Hne) as (lo & hi & Hlo & Hhi & _).
  exists lo, hi. split; [exact Hlo|]. split; [exact Hhi|].
  split; [apply np_percentile_lower; [assumption | lia | now apply np_min_lower]|].
  repeat (split; [apply np_percentile_mono; [assumption | lia | lia | lia]|]).
  apply np_percentile_upper; [assumption | lia | now apply np_max_upper].
Qed.

Lemma percentiles_ordered_witness :
  m_p10 [4; 1; 3; 2] <= m_p20 [4; 1; 3; 2] /\ m_p90 [4; 1; 3; 2] <= m_p95 [4; 1; 3; 2].
Proof.
  destruct (percentiles_ordered [4; 1; 3; 2] ltac:(discriminate))
    as (lo & hi & _ & _ & _ & _ & _ & H & _ & _ & _ & _ & _ & _ & _ & _ & _ & H' & _).
  split; assumption.
Defined.

(** X10.  The percentile spreads are ordered: 0 <= p90 - p10 <= p95 - p05,
    and neither exceeds max - min. *)
Theorem percentile_spreads (data : list Q) :
  data <> [] ->
  exists lo hi,
    m_min data = Some lo /\ m_max data = Some hi /\
    0 <= m_90m10 data /\ m_90m10 data <= m_95m05 data /\
    m_95m05 data <= hi - lo.
Proof.
  intros Hne.
  destruct (np_min_max_values data Hne) as (lo & hi & Hlo & Hhi & _).
  exists lo, hi. split; [exact Hlo|]. split; [exact Hhi|].
  unfold m_90m10, m_95m05. simpl.
  pose proof (np_percentile_lower data lo 5 Hne ltac:(lia) (np_min_lower _ _ Hlo)).
  pose proof (np_percentile_mono data 5 10 Hne ltac:(lia) ltac:(lia) ltac:(lia)).
  pose proof (np_percentile_mono data 10 90 Hne ltac:(lia) ltac:(lia) ltac:(lia)).
  pose proof (np_percentile_mono data 90 95 Hne ltac:(lia) ltac:(lia) ltac:(lia)).
  pose proof (np_percentile_upper data hi 95 Hne ltac:(lia) (np_max_upper _ _ Hhi)).
  repeat split; lra.
Qed.

Lemma percentile_spreads_witness :
  0 <= m_90m10 [4; 1; 3; 2] /\ m_90m10 [4; 1; 3; 2] <= m_95m05 [4; 1; 3; 2].
Proof.
  destruct (percentile_spreads [4; 1; 3; 2] ltac:(discriminate))
    as (lo & hi & _ & _ & H1 & H2 & _).
  split; assumption.
Defined.

(** X11.  Whenever the 99th percentile is positive, [m_profilearea]
    returns at most 98; when in addition no value is negative it returns at
    least 1/2, so that the sentinel -9999 then marks exactly the vectors
    whose 99th percentile is not positive. *)
Theorem m_profilearea_bounds (data : list Q) :
  data <> [] -> 0 < m_p99 data ->
  exists r, m_profilearea data = Some r /\ r <= 98 /\
            (Forall (fun x => 0 <= x) data -> 1 # 2 <= r).
Proof.
  intros Hne Hpos. unfold m_p99 in Hpos.
  destruct (proj2 (m_profilearea_value data Hne) Hpos) as (minv & r & Hmin & Hr & E).
  exists r. split; [exact Hr|].
  set (p99 := np_percentile data 99) in *.
  set (terms := map (fun k => 2 * np_percentile data k / p99) (map Z.of_nat (seq 1 97))).
  assert (E' : r == (1 # 2) * (Qmax minv 0 / p99 + np_sum terms + 1)) by exact E.
  assert (minv <= p99) as Hminv
    by (apply np_percentile_lower; [assumption | lia | now apply np_min_lower]).
  assert (0 <= Qmax minv 0 / p99 /\ Qmax minv 0 / p99 <= 1) as [Hp0 Hp1].
  { split.
    - apply Qle_shift_div_l; [assumption|]. rewrite Qmult_0_l. apply Q.le_max_r.
    - apply Qle_shift_div_r; [assumption|]. rewrite Qmult_1_l.
      apply Q.max_lub; [assumption | lra]. }
  assert (len terms == 97) as Hlen.
  { unfold len, terms. rewrite !List.length_map, List.length_seq. reflexivity. }
  split.
  - assert (Forall (fun t => t <= 2) terms) as Hup.
    { apply Forall_forall. intros t Ht. apply list_elem_of_In, in_map_iff in Ht.
      destruct Ht as (k & <- & Hk). apply in_map_iff in Hk.
      destruct Hk as (j & <- & Hj). apply in_seq in Hj.
      apply Qle_shift_div_r; [assumption|].
      assert (np_percentile data (Z.of_nat j) <= p99)
        by (apply np_percentile_mono; [assumption | lia | lia | lia]).
      lra. }
    pose proof (np_sum_upper 2 terms Hup) as Hsum. rewrite Hlen in Hsum. lra.
  - intros Hnonneg.
    assert (Forall (fun t => 0 <= t) terms) as Hlow.
    { apply Forall_forall. intros t Ht. apply list_elem_of_In, in_map_iff in Ht.
      destruct Ht as (k & <- & Hk). apply in_map_iff in Hk.
      destruct Hk as (j & <- & Hj). apply in_seq in Hj.
      apply Qle_shift_div_l; [assumption|].
      assert (0 <= np_percentile data (Z.of_nat j))
        by (apply np_percentile_lower; [assumption | lia | assumption]).
      lra. }
    pose proof (np_sum_lower 0 terms Hlow) as Hsum. lra.
Qed.

Lemma m_profilearea_bounds_witness :
  exists r, m_profilearea [0; 100] = Some r /\ r <= 98 /\ 1 # 2 <= r.
Proof.
  destruct (m_profilearea_bounds [0; 100] ltac:(discriminate)) as (r & Hr & H1 & H2).
  - vm_compute. reflexivity.
  - exists r. split; [exact Hr|]. split; [exact H1|]. apply H2.
    repeat constructor; discriminate.
Defined.

(** ** More on the per-tile stages *)

Module ShatterMore.
Import Shatter ShatterProps.

(** X12.  Every group of the grouping [arrange] returns is nonempty and
    holds, in input-row order, exactly the retained rows whose floored
    (xi, yi) is the group's key. *)
Theorem arrange_groups (df : DataFrame) (leaf : Extents) (attrs : list string)
    (g : GroupBy) :
  arrange (Some df) leaf attrs = Ok (Some g) ->
  g_columns g = attrs ++ ["xi"; "yi"]%string /\
  forall key rs, groups g !! key = Some rs ->
    rs <> [] /\
    rs = List.filter (fun r => bool_decide (cell_key r = key))
           (map floor_index (List.filter (kept_by_boundary leaf) (rows df))) /\
    Forall (fun r => cell_key r = key) rs.
Proof.
  intros Harr. apply arrange_Some in Harr. subst g. simpl.
  split; [reflexivity|]. intros key rs Hlook.
  rewrite groupby_lookup in Hlook.
  destruct (List.filter _ (map floor_index _)) as [|r l] eqn:E; [discriminate|].
  injection Hlook as <-. split; [discriminate|]. split; [reflexivity|].
  apply Forall_forall. intros r' Hr'. apply list_elem_of_In in Hr'.
  rewrite <- E in Hr'. apply filter_In in Hr'. destruct Hr' as [_ Hk].
  now apply bool_decide_eq_true in Hk.
Qed.

Lemma arrange_groups_witness :
  exists g, arrange (Some two_points) unit_leaf ["Z"%string] = Ok (Some g) /\
    forall key rs, groups g !! key = Some rs -> rs <> [].
Proof.
  eexists. split; [reflexivity|]. intros key rs H.
  destruct (arrange_groups two_points unit_leaf ["Z"%string] _ eq_refl) as [_ Hg].
  exact (proj1 (Hg key rs H)).
Defined.

Lemma has_column_In (c : string) (cols : list string) :
  has_column c cols = true <-> In c cols.
Proof.
  unfold has_column. rewrite existsb_exists. split.
  - intros (x & Hx & E). apply String.eqb_eq in E. now subst.
  - intros H. exists c. split; [assumption | apply String.eqb_refl].
Qed.

(** X14.  [get_metrics] reads the cell sizes off the Z column: on a
    grouping made by [arrange] for attributes that do not include Z it
    never returns a table, whatever the configuration. *)
Theorem get_metrics_needs_Z (V : Type) (df : DataFrame) (leaf : Extents)
    (attrs : list string) (g : GroupBy) (cfg : StorageConfig V) :
  arrange (Some df) leaf attrs = Ok (Some g) ->
  ~ In "Z"%string attrs ->
  exists e, get_metrics (Some g) cfg = Raised e.
Proof.
  intros Harr HZ. apply arrange_Some in Harr. subst g.
  unfold get_metrics.
  destruct (negb (forallb _ _)); [now eexists|].
  assert (has_column "Z" (value_columns
            {| g_columns := attrs ++ ["xi"; "yi"]%string;
               groups := groupby (map floor_index
                           (List.filter (kept_by_boundary leaf) (rows df))) |})
          = false) as ->.
  { apply not_true_iff_false. intros H. apply has_column_In in H.
    unfold value_columns in H. simpl in H. apply filter_In in H.
    destruct H as [H _]. apply in_app_or in H. destruct H as [H | H]; [contradiction|].
    simpl in H. destruct H as [H | [H | []]]; discriminate. }
  simpl. now eexists.
Qed.

Lemma get_metrics_needs_Z_witness :
  exists g, arrange (Some two_points) unit_leaf ["X"%string] = Ok (Some g) /\
    exists e, get_metrics (Some g) mean_of_Z = Raised e.
Proof.
  eexists. split; [reflexivity|].
  apply (get_metrics_needs_Z Q two_points unit_leaf ["X"%string] _ mean_of_Z eq_refl).
  intros [H | []]. discriminate.
Defined.

(** X15.  The table [get_metrics] returns has one row per group, for the
    same cells; the row's [count] is the number of rows of the group and
    each raw attribute column holds the group's values in row order. *)
Theorem get_metrics_rows (V : Type) (g : GroupBy) (cfg : StorageConfig V)
    (t : gmap (Z * Z) (CellRow V)) :
  get_metrics (Some g) cfg = Ok (Some t) ->
  dom t = dom (groups g) /\
  forall key rs, groups g !! key = Some rs ->
    exists row, t !! key = Some row /\ count row = length rs /\
      forall a, In a (value_columns g) -> raw row !! a = Some (column_of a rs).
Proof.
  unfold get_metrics.
  destruct (negb (forallb _ _)); [discriminate|].
  destruct (has_column "Z" (value_columns g)) eqn:HZ; simpl; [|discriminate].
  intros Ht. injection Ht as <-. split; [apply dom_fmap_L|].
  intros key rs Hrs. rewrite lookup_fmap, Hrs. simpl.
  eexists. split; [reflexivity|]. simpl. split.
  - rewrite (agg_list_column _ rs _ HZ). simpl. apply column_of_length.
  - intros a Ha. apply agg_list_column. now apply has_column_In.
Qed.

Lemma get_metrics_rows_witness :
  exists t, get_metrics (Some one_cell) mean_of_Z = Ok (Some t) /\
            dom t = dom (groups one_cell).
Proof.
  eexists. split; [reflexivity|].
  apply (get_metrics_rows Q one_cell mean_of_Z _ eq_refl).
Defined.

(** X13.  What [arrange] does with a nonempty batch: AttributeError when
    the frame has no Y or no X column; KeyError when one of the requested
    attributes (or xi, yi) is not a column; ValueError when all are
    columns but xi or yi is itself among the requested attributes; and a
    grouping otherwise. *)
Theorem arrange_outcome (df : DataFrame) (leaf : Extents) (attrs : list string) :
  size df <> O ->
  (has_column "Y" (columns df) = false \/ has_column "X" (columns df) = false ->
   arrange (Some df) leaf attrs = Raised AttributeError) /\
  (has_column "Y" (columns df) = true -> has_column "X" (columns df) = true ->
   (exists c, In c (attrs ++ ["xi"; "yi"]%string) /\ has_column c (columns df) = false) ->
   arrange (Some df) leaf attrs = Raised KeyError) /\
  (has_column "Y" (columns df) = true -> has_column "X" (columns df) = true ->
   (forall c, In c (attrs ++ ["xi"; "yi"]%string) -> has_column c (columns df) = true) ->
   (In "xi"%string attrs \/ In "yi"%string attrs ->
    arrange (Some df) leaf attrs = Raised ValueError) /\
   (~ In "xi"%string attrs -> ~ In "yi"%string attrs ->
    exists g, arrange (Some df) leaf attrs = Ok (Some g))).
Proof.
  intros Hsize. apply Nat.eqb_neq in Hsize. unfold arrange. rewrite Hsize.
  split; [|split].
  - intros [HY | HX].
    + now rewrite HY.
    + rewrite HX. now destruct (has_column "Y" (columns df)).
  - intros HY HX (c & Hc & Hmiss). rewrite HY, HX. simpl.
    destruct (forallb _ _) eqn:E; [|reflexivity].
    rewrite forallb_forall in E. rewrite (E c Hc) in Hmiss. discriminate.
  - intros HY HX Hall. rewrite HY, HX. simpl.
    assert (forallb (fun c => has_column c (columns df)) (attrs ++ ["xi"; "yi"]%string)
            = true) as -> by (now apply forallb_forall).
    simpl. split.
    + intros Hkey.
      assert (has_column "xi" attrs || has_column "yi" attrs = true) as ->; [|reflexivity].
      apply orb_true_iff. destruct Hkey as [H | H]; [left | right];
        now apply has_column_In.
    + intros Hxi Hyi.
      assert (has_column "xi" attrs || has_column "yi" attrs = false) as ->.
      { apply orb_false_iff. split; apply not_true_iff_false; intros H;
          apply has_column_In in H; contradiction. }
      eexists. reflexivity.
Qed.

Lemma arrange_outcome_witness :
  arrange (Some two_points) unit_leaf ["Intensity"%string] = Raised KeyError /\
  arrange (Some two_points) unit_leaf ["xi"%string] = Raised ValueError.
Proof.
  destruct (arrange_outcome two_points unit_leaf ["Intensity"%string]) as (_ & H & _);
    [discriminate|].
  destruct (arrange_outcome two_points unit_leaf ["xi"%string]) as (_ & _ & H');
    [discriminate|].
  split.
  - apply H; [reflexivity | reflexivity |].
    exists "Intensity"%string. split; [now left | reflexivity].
  - apply H'; [reflexivity | reflexivity | | now left; left].
    intros c Hc. apply has_column_In.
    destruct Hc as [<- | [<- | [<- | []]]]; simpl; tauto.
Defined.

Lemma map_fold_pointwise {A B} (f f' : Z * Z -> A -> B -> B) (b : B)
    (m : gmap (Z * Z) A) :
  (forall i x acc, f i x acc = f' i x acc) -> map_fold f b m = map_fold f' b m.
Proof.
  intros Hff. rewrite !map_fold_foldr.
  induction (map_to_list m) as [|[i x] l IH]; simpl; [reflexivity|].
  now rewrite IH, Hff.
Qed.

(** Grouping neither loses nor repeats a row. *)
Lemma groupby_total (rs : list Row) :
  map_fold (fun _ (l : list Row) acc => (length l + acc)%nat) O (groupby rs)
  = length rs.
Proof.
  induction rs as [|r rs IH]; simpl; [apply map_fold_empty|].
  set (m := groupby rs) in *. set (k := cell_key r).
  rewrite <- insert_delete_eq.
  rewrite map_fold_insert_L; [| intros; lia | apply lookup_delete_eq].
  destruct (m !! k) as [l|] eqn:E; simpl.
  - rewrite <- IH. rewrite (map_fold_delete_L _ _ k l m); [lia | intros; lia | exact E].
  - rewrite delete_id by exact E. rewrite IH. reflexivity.
Qed.

(** X16.  The point count of a tile.  When [arrange] and [get_metrics]
    run through on a batch and [write] returns, it returns the number of
    points of the batch with Y < tile.maxy and X < tile.maxx and has
    appended at most one fragment; when the batch held points and the
    boundary filter left none, [write] raises AttributeError instead; and
    when the filter leaves a point, [write] does return, with one fragment
    appended. *)
Theorem tile_point_count (V : Type) (df : DataFrame) (leaf : Extents)
    (attrs : list string) (cfg : StorageConfig V) (tdb : Store V)
    (arranged : option GroupBy) (table : option (gmap (Z * Z) (CellRow V))) :
  columns df <> [] ->
  arrange (Some df) leaf attrs = Ok arranged ->
  get_metrics arranged cfg = Ok table ->
  (forall tdb' pc, write table tdb = Ok (tdb', pc) ->
     pc = length (List.filter (kept_by_boundary leaf) (rows df)) /\
     (tdb' = tdb \/ exists t, tdb' = tdb ++ [t])) /\
  (rows df <> [] -> List.filter (kept_by_boundary leaf) (rows df) = [] ->
   write table tdb = Raised AttributeError) /\
  (List.filter (kept_by_boundary leaf) (rows df) <> [] ->
   exists t, table = Some t /\
     write table tdb
     = Ok (tdb ++ [t], length (List.filter (kept_by_boundary leaf) (rows df)))).
Proof.
  intros Hcols Harr Hget. destruct arranged as [g|].
  - apply arrange_Some in Harr. subst g.
    unfold get_metrics in Hget.
    destruct (negb (forallb _ _)); [discriminate|].
    destruct (has_column "Z" (value_columns _)) eqn:HZ; simpl in Hget; [|discriminate].
    injection Hget as <-.
    set (kept := List.filter (kept_by_boundary leaf) (rows df)) in *.
    match goal with |- context [write (Some ?t) tdb] => set (tbl := t) end.
    assert (count_sum V tbl = length kept) as Hcount.
    { unfold count_sum, tbl. rewrite map_fold_fmap.
      erewrite map_fold_pointwise; [rewrite groupby_total; apply List.length_map|].
      intros i rs acc. simpl. rewrite (agg_list_column _ rs _ HZ). simpl.
      now rewrite column_of_length. }
    assert (kept = [] -> base.size tbl = 0%nat) as Hempty.
    { intros E. unfold tbl. simpl. fold kept. rewrite E. simpl.
      rewrite fmap_empty. apply map_size_empty. }
    assert (kept <> [] -> base.size tbl <> 0%nat) as Hfull.
    { intros Hne E. apply map_size_empty_iff in E. unfold tbl in E.
      apply fmap_empty_iff in E. simpl in E. fold kept in E.
      destruct kept as [|r rs]; [contradiction|]. simpl in E.
      now apply insert_non_empty in E. }
    unfold write. split; [|split].
    + intros tdb' pc Hw.
      destruct (base.size tbl =? 0)%nat; [discriminate|].
      injection Hw as <- <-. split; [exact Hcount | right; now eexists].
    + intros _ Hnone. now rewrite (Hempty Hnone).
    + intros Hne. exists tbl. split; [reflexivity|].
      apply Hfull, Nat.eqb_neq in Hne. now rewrite Hne, Hcount.
  - simpl in Hget. injection Hget as <-. simpl.
    unfold arrange in Harr.
    destruct (size df =? 0)%nat eqn:Hsize.
    + apply Nat.eqb_eq in Hsize. unfold size in Hsize.
      assert (rows df = []) as Hrows.
      { destruct (rows df); [reflexivity|].
        destruct (columns df); [contradiction | simpl in Hsize; lia]. }
      split; [|split].
      * intros tdb' pc Hw. injection Hw as <- <-. rewrite Hrows.
        split; [reflexivity | now left].
      * intros Hne. contradiction.
      * rewrite Hrows. intros Hne. now contradiction Hne.
    + destruct (negb (has_column "Y" _)); [discriminate|].
      destruct (negb (has_column "X" _)); [discriminate|].
      destruct (negb (forallb _ _)); [discriminate|].
      destruct (has_column "xi" attrs || has_column "yi" attrs); discriminate.
Qed.

Lemma tile_point_count_witness :
  exists g t,
    arrange (Some two_points) unit_leaf ["Z"%string] = Ok (Some g) /\
    get_metrics (Some g) mean_of_Z = Ok (Some t) /\
    write (Some t) [] = Ok ([t], 1%nat).
Proof.
  eexists. eexists. split; [reflexivity|]. split; [reflexivity|].
  match goal with |- write (Some ?t) [] = _ =>
    destruct (write (Some t) []) as [[tdb' pc] | e] eqn:Hw; [|vm_compute in Hw; discriminate];
    destruct (proj1 (tile_point_count Q two_points unit_leaf ["Z"%string] mean_of_Z []
                       _ _ ltac:(discriminate) eq_refl eq_refl) tdb' pc Hw) as [Hpc _];
    assert (tdb' = [t]) as -> by (vm_compute in Hw; now injection Hw);
    now rewrite Hpc
  end.
Defined.

End ShatterMore.

(** ** More on bounds and chunks *)

Module MainMore.
Import Main MainProps.

Lemma mapM_In_l {A B} (f : A -> option B) (l : list A) (k : list B) (x : A) :
  mapM f l = Some k -> In x l -> exists y, In y k /\ f x = Some y.
Proof.
  intros H. apply mapM_Some_1 in H. induction H as [|x' y' l k Hxy _ IH].
  - intros [].
  - intros [<- | Hin].
    + exists y'. split; [now left | assumption].
    + destruct (IH Hin) as (y & Hy & Hf). exists y. split; [now right | assumption].
Qed.

Lemma py_range_step_multiple (start stop step z : Z) (l : list Z) :
  (0 < step)%Z -> py_range_step start stop step = Some l ->
  (In z l <-> (start <= z < stop)%Z /\ exists k, (0 <= k)%Z /\ z = (start + k * step)%Z).
Proof.
  intros Hstep H. split.
  - intros Hin. split; [now apply (In_py_range_step _ _ _ _ _ Hstep H)|].
    unfold py_range_step in H.
    destruct (Z.eqb_spec step 0); [lia|]. injection H as <-.
    apply in_map_iff in Hin. destruct Hin as (k & <- & _).
    exists (Z.of_nat k). split; [lia | reflexivity].
  - intros (Hz & k & Hk & ->). unfold py_range_step in H.
    destruct (Z.eqb_spec step 0); [lia|].
    destruct (Z.ltb_spec 0 step); [|lia]. injection H as <-.
    apply in_map_iff. exists (Z.to_nat k). split; [lia|]. apply in_seq.
    assert (k + 1 <= (stop - start + step - 1) / step)%Z.
    { apply Z.div_le_lower_bound; [assumption | nia]. }
    lia.
Qed.

Lemma Chunk_init_indices (a1 a2 b1 b2 : Z) (p : Bounds) (c : Chunk) (x y : Z) :
  Chunk_init (a1, a2) (b1, b2) p = Some c ->
  (In (x, y) (indices c) <-> (a1 <= x <= a2)%Z /\ (b1 <= y <= b2)%Z).
Proof.
  unfold Chunk_init. destruct (Bounds_init _ _ _ _ _ _); [|discriminate].
  simpl. intros H. injection H as <-. simpl.
  rewrite in_flat_map. split.
  - intros (i & Hi & Hxy). apply in_map_iff in Hxy. destruct Hxy as (j & E & Hj).
    injection E as <- <-. apply In_py_range in Hi, Hj. lia.
  - intros [Hx Hy]. exists x. split; [apply In_py_range; lia|].
    apply in_map_iff. exists y. split; [reflexivity | apply In_py_range; lia].
Qed.

Lemma Chunk_init_is_Some (xr yr : Z * Z) (p : Bounds) :
  Qeq_bool (cell_size p) 0 = false -> is_Some (Chunk_init xr yr p).
Proof.
  intros Hcs. unfold Chunk_init, Bounds_init. destruct xr, yr.
  rewrite Hcs. simpl. now eexists.
Qed.

(** The chunks of [chunk] are the [Chunk_init] of a column [i] and of a
    row range that starts at a multiple [j] of the group size. *)
Lemma chunk_member (self : Bounds) (cs : list Chunk) (c : Chunk) :
  (0 < group_size self)%Z -> chunk self = Some cs ->
  (In c cs <->
   exists i j k, (0 <= i < xi self)%Z /\ (0 <= j < yi self)%Z /\
     (0 <= k)%Z /\ j = (k * group_size self)%Z /\
     Chunk_init (i, i) (j, Z.min (j + group_size self - 1) (yi self)) self = Some c).
Proof.
  intros Hgs Hchunk. unfold chunk in Hchunk.
  destruct (mapM _ (py_range 0 (xi self))) as [per_i|] eqn:Hper; [|discriminate].
  simpl in Hchunk. injection Hchunk as <-.
  destruct (py_range_step 0 (yi self) (group_size self)) as [js|] eqn:Hjs.
  2:{ unfold py_range_step in Hjs. destruct (Z.eqb_spec (group_size self) 0); [lia | discriminate]. }
  split.
  - intros Hc. apply in_concat in Hc. destruct Hc as (row & Hrow & Hc).
    destruct (mapM_In _ _ _ _ Hper Hrow) as (i & Hi & Hfi). simpl in Hfi.
    destruct (mapM_In _ _ _ _ Hfi Hc) as (j & Hj & Hinit).
    apply In_py_range in Hi.
    apply (py_range_step_multiple _ _ _ _ _ Hgs Hjs) in Hj.
    destruct Hj as (Hj & k & Hk & Hjk).
    exists i, j, k. repeat split; try lia. exact Hinit.
  - intros (i & j & k & Hi & Hj & Hk & Hjk & Hinit).
    assert (In i (py_range 0 (xi self))) as Hi' by (apply In_py_range; lia).
    destruct (mapM_In_l _ _ _ _ Hper Hi') as (row & Hrow & Hfi).
    cbv beta iota delta [mbind option_bind] in Hfi.
    assert (In j js) as Hj'.
    { apply (py_range_step_multiple _ _ _ _ _ Hgs Hjs). split; [lia|].
      exists k. split; [assumption | lia]. }
    destruct (mapM_In_l _ _ _ _ Hfi Hj') as (c' & Hc' & Hinit').
    cbv beta in Hinit'. rewrite Hinit in Hinit'. injection Hinit' as <-.
    apply in_concat. exists row. split; assumption.
Qed.

Lemma chunk_is_Some (self : Bounds) :
  (0 < group_size self)%Z -> Qeq_bool (cell_size self) 0 = false ->
  is_Some (chunk self).
Proof.
  intros Hgs Hcs. unfold chunk.
  assert (is_Some (mapM (fun i =>
            js ← py_range_step 0 (yi self) (group_size self);
            mapM (fun j => Chunk_init (i, i)
                    (j, Z.min (j + group_size self - 1) (yi self)) self) js)
          (py_range 0 (xi self)))) as [per_i ->].
  { apply mapM_is_Some. apply Forall_forall. intros i _. unfold compose.
    unfold py_range_step. destruct (Z.eqb_spec (group_size self) 0); [lia|].
    cbv beta iota delta [mbind option_bind].
    apply mapM_is_Some. apply Forall_forall. intros j _. unfold compose.
    now apply Chunk_init_is_Some. }
  simpl. now eexists.
Qed.

(** X18.  With a positive group size (and a nonzero cell size) [chunk]
    runs without raising, and every cell of the xi by yi grid is among the
    index pairs of some chunk. *)
Theorem chunks_cover_grid (self : Bounds) :
  (0 < group_size self)%Z -> Qeq_bool (cell_size self) 0 = false ->
  exists cs, chunk self = Some cs /\
    forall x y, (0 <= x < xi self)%Z -> (0 <= y < yi self)%Z ->
      exists c, In c cs /\ In (x, y) (indices c).
Proof.
  intros Hgs Hcs. destruct (chunk_is_Some self Hgs Hcs) as [cs Hchunk].
  exists cs. split; [exact Hchunk|]. intros x y Hx Hy.
  set (gs := group_size self) in *.
  set (j := (y / gs * gs)%Z).
  assert (j <= y < j + gs)%Z as Hj.
  { unfold j. pose proof (Z.mod_pos_bound y gs Hgs).
    pose proof (Z.div_mod y gs ltac:(lia)). nia. }
  assert (0 <= y / gs)%Z as Hk by (apply Z.div_pos; lia).
  destruct (Chunk_init_is_Some (x, x) (j, Z.min (j + gs - 1) (yi self)) self Hcs)
    as [c Hc].
  exists c. split.
  - apply (chunk_member self cs c Hgs Hchunk).
    exists x, j, (y / gs)%Z. repeat split; try lia. exact Hc.
  - apply (Chunk_init_indices _ _ _ _ _ _ _ _ Hc). lia.
Qed.

Lemma chunks_cover_grid_witness :
  exists b, Bounds_init 0 0 4 4 1 3 = Some b /\
    exists cs c, chunk b = Some cs /\ In c cs /\ In (2, 3)%Z (indices c).
Proof.
  eexists. split; [reflexivity|].
  match goal with |- exists cs c, chunk ?b = _ /\ _ =>
    destruct (chunks_cover_grid b eq_refl eq_refl) as (cs & Hcs & Hcover)
  end.
  destruct (Hcover 2%Z 3%Z) as (c & Hc & Hin).
  - vm_compute. split; [discriminate | reflexivity].
  - vm_compute. split; [discriminate | reflexivity].
  - exists cs, c. split; [exact Hcs|]. split; assumption.
Defined.

(** X19.  No cell is handed out twice: two chunks of [chunk] that share
    an index pair are the same chunk. *)
Theorem chunks_disjoint (self : Bounds) (cs : list Chunk) (c1 c2 : Chunk)
    (x y : Z) :
  (0 < group_size self)%Z -> chunk self = Some cs ->
  In c1 cs -> In c2 cs ->
  In (x, y) (indices c1) -> In (x, y) (indices c2) -> c1 = c2.
Proof.
  intros Hgs Hchunk H1 H2 Hxy1 Hxy2.
  apply (chunk_member self cs c1 Hgs Hchunk) in H1.
  apply (chunk_member self cs c2 Hgs Hchunk) in H2.
  destruct H1 as (i1 & j1 & k1 & _ & _ & _ & Hj1 & Hc1).
  destruct H2 as (i2 & j2 & k2 & _ & _ & _ & Hj2 & Hc2).
  apply (Chunk_init_indices _ _ _ _ _ _ _ _ Hc1) in Hxy1.
  apply (Chunk_init_indices _ _ _ _ _ _ _ _ Hc2) in Hxy2.
  assert (i1 = i2) as -> by lia.
  assert (k1 = k2) as Hk by nia.
  assert (j1 = j2) as -> by (subst; reflexivity).
  rewrite Hc1 in Hc2. now injection Hc2.
Qed.

Lemma chunks_disjoint_witness :
  exists b, Bounds_init 0 0 4 4 1 3 = Some b /\
    exists cs c, chunk b = Some cs /\ In c cs /\ In (2, 3)%Z (indices c) /\
      forall c', In c' cs -> In (2, 3)%Z (indices c') -> c' = c.
Proof.
  eexists. split; [reflexivity|].
  match goal with |- exists cs c, chunk ?b = _ /\ _ =>
    destruct (chunk_is_Some b eq_refl eq_refl) as [cs Hcs];
    destruct (Chunk_init_is_Some (2, 2)%Z (3, 4)%Z b eq_refl) as [c Hc];
    assert (In c cs) as Hin
      by (apply (chunk_member b cs c eq_refl Hcs); exists 2%Z, 3%Z, 1%Z;
          split; [vm_compute; split; [discriminate | reflexivity]|];
          split; [vm_compute; split; [discriminate | reflexivity]|];
          split; [discriminate|]; split; [reflexivity | exact Hc]);
    assert (In (2, 3)%Z (indices c)) as Hxy
      by (apply (Chunk_init_indices _ _ _ _ _ _ _ _ Hc); lia);
    exists cs, c; split; [exact Hcs|]; split; [exact Hin|]; split; [exact Hxy|];
    intros c' Hc' Hxy';
    exact (chunks_disjoint b cs c' c 2%Z 3%Z eq_refl Hcs Hc' Hin Hxy' Hxy)
  end.
Defined.

End MainMore.

(** ** Share above the mode *)




(** ** Small samples *)

Lemma np_mean_nonneg (l : list Q) :
  Forall (fun a => 0 <= a) l -> 0 <= np_mean l.
Proof.
  intros Hall. unfold np_mean, Qdiv. apply Qmult_le_0_compat.
  - pose proof (np_sum_lower 0 l Hall). lra.
  - apply Qinv_le_0_compat. unfold len. change 0 with (inject_Z 0).
    rewrite <- Zle_Qle. lia.
Qed.

Lemma second_moment_constant (c : Q) (data : list Q) :
  data <> [] -> Forall (fun x => x == c) data ->
  np_mean (map (fun x => (x - np_mean data) ^ 2) data) == 0.
Proof.
  intros Hne Hall. pose proof (np_mean_constant c data Hne Hall) as Hm.
  apply np_mean_constant.
  - destruct data; [contradiction | discriminate].
  - apply Forall_forall. intros y Hy. apply list_elem_of_In, in_map_iff in Hy.
    destruct Hy as (x & <- & Hx). apply list_elem_of_In in Hx.
    assert (x - np_mean data == 0) as ->
      by (rewrite (proj1 (Forall_forall _ _) Hall x Hx), Hm; ring).
    reflexivity.
Qed.

(** The kurtosis scipy returns is nan or at least -3, never the sentinel. *)
Lemma kurtosis_is_not_sentinel (data : list Q) :
  kurtosis_by_moments data <> finite sentinel.
Proof.
  unfold kurtosis_by_moments.
  set (m2 := np_mean (map (fun x => (x - np_mean data) ^ 2) data)).
  set (m4 := np_mean (map (fun x => (x - np_mean data) ^ 4) data)).
  destruct (Qeq_bool m2 0); [discriminate|]. intros H.
  assert (forall a b : Q, finite a = finite b -> a == b) as Hinj
    by (intros a b Hab; injection Hab as ->; reflexivity).
  apply Hinj in H. rename H into E.
  assert (0 <= m4) as H4.
  { apply np_mean_nonneg. apply Forall_forall. intros y Hy.
    apply list_elem_of_In, in_map_iff in Hy. destruct Hy as (x & <- & _).
    set (t := x - np_mean data).
    assert (t ^ 4 == (t * t) * (t * t)) as -> by ring.
    assert (0 <= t * t) by nra.
    now apply Qmult_le_0_compat. }
  assert (0 <= m4 / (m2 * m2)) as Hq.
  { unfold Qdiv. apply Qmult_le_0_compat; [assumption|].
    apply Qinv_le_0_compat. nra. }
  unfold sentinel in E. lra.
Qed.

(** C6 as stated fails: on 2, 2, 2, 2 the variance is zero and both
    statistics are nan, not a finite value. *)
Lemma constant_sample_has_nan_moments :
  (forall pow15, m_skewness (skew_by_moments pow15) [2; 2; 2; 2] = nan) /\
  m_kurtosis kurtosis_by_moments [2; 2; 2; 2] = nan.
Proof. split; [intros pow15|]; reflexivity. Qed.

(** C6, amended.  With fewer than four values each of skewness, kurtosis
    and the seven L-moment metrics returns the sentinel.  From four values
    on, [m_skewness] and [m_kurtosis] leave the sentinel branch and return
    scipy's statistic; that is nan, not a finite value, when all values are
    equal, and the kurtosis is never the sentinel. *)
Theorem small_sample_sentinels (pow15 : Q -> Q)
    (lmom4 : list Q -> Q * Q * Q * Q) (data : list Q) :
  ((length data < 4)%nat ->
     m_skewness (skew_by_moments pow15) data = finite sentinel /\
     m_kurtosis kurtosis_by_moments data = finite sentinel /\
     m_l1 data = sentinel /\
     m_l2 lmom4 data = sentinel /\
     m_l3 lmom4 data = sentinel /\
     m_l4 lmom4 data = sentinel /\
     m_lcv lmom4 data = sentinel /\
     m_lskewness lmom4 data = sentinel /\
     m_lkurtosis lmom4 data = sentinel) /\
  ((4 <= length data)%nat ->
     m_skewness (skew_by_moments pow15) data = skew_by_moments pow15 data /\
     m_kurtosis kurtosis_by_moments data = kurtosis_by_moments data /\
     m_kurtosis kurtosis_by_moments data <> finite sentinel /\
     (forall c, Forall (fun x => x == c) data ->
        m_skewness (skew_by_moments pow15) data = nan /\
        m_kurtosis kurtosis_by_moments data = nan)).
Proof.
  unfold m_skewness, m_kurtosis, m_l1, m_l2, m_l3, m_l4, m_lcv, m_lskewness,
    m_lkurtosis.
  split; intros Hlen.
  - apply Nat.ltb_lt in Hlen. rewrite Hlen. repeat split.
  - assert (data <> []) as Hne by (intros ->; simpl in Hlen; lia).
    apply Nat.ltb_ge in Hlen. rewrite Hlen.
    split; [reflexivity|]. split; [reflexivity|].
    split; [apply kurtosis_is_not_sentinel|].
    intros c Hall.
    pose proof (second_moment_constant c data Hne Hall) as H2.
    apply Qeq_bool_iff in H2.
    unfold skew_by_moments, kurtosis_by_moments. now rewrite H2.
Qed.

Lemma small_sample_sentinels_witness :
  (m_skewness (skew_by_moments (fun x => x)) [1; 2; 3] = finite sentinel /\
   m_l2 (fun _ => (0, 0, 0, 0)) [1; 2; 3] = sentinel) /\
  m_kurtosis kurtosis_by_moments [5; 5; 5; 5] = nan.
Proof.
  split.
  - destruct (proj1 (small_sample_sentinels (fun x => x)
                       (fun _ => (0, 0, 0, 0)) [1; 2; 3])) as (H1 & _ & _ & H4 & _).
    + simpl. lia.
    + split; assumption.
  - destruct (proj2 (small_sample_sentinels (fun x => x)
                       (fun _ => (0, 0, 0, 0)) [5; 5; 5; 5])) as (_ & _ & _ & H).
    + simpl. lia.
    + apply (H 5). repeat constructor; reflexivity.
Defined.

(** ** A cell whose values are all equal, once more *)

(** C7 as stated fails on doubles: the mean of three copies of the double
    nearest 0.1 is the next double above it; the variance is 2^-112 and
    the standard deviation 2^-56, not 0. *)
Lemma constant_tenths_round :
  Doubles.m_mean [Doubles.tenth; Doubles.tenth; Doubles.tenth]
  = Some Doubles.above_tenth /\
  PrimFloat.eqb Doubles.above_tenth Doubles.tenth = false /\
  Doubles.m_variance [Doubles.tenth; Doubles.tenth; Doubles.tenth]
  = Some 0x1p-112%float /\
  Doubles.m_stddev [Doubles.tenth; Doubles.tenth; Doubles.tenth]
  = Some 0x1p-56%float.
Proof. repeat split; vm_compute; reflexivity. Qed.

(** C7, amended.  On a nonempty vector whose values all equal [c], the
    metrics that select or compare values give what the claim says: min,
    max and median are [c] and [m_crr] returns the sentinel. *)
Theorem constant_cell_metrics (c : Q) (data : list Q) :
  data <> [] ->
  Forall (fun x => x == c) data ->
  (exists r, m_min data = Some r /\ r == c) /\
  (exists r, m_max data = Some r /\ r == c) /\
  m_median data == c /\
  m_crr data = Some sentinel.
Proof.
  intros Hne Hall.
  destruct data as [|x xs]; [contradiction|].
  inversion Hall as [|? ? Hx Hxs]; subst.
  pose proof (fold_min_constant c xs x Hx Hxs) as Hmin.
  pose proof (fold_max_constant c xs x Hx Hxs) as Hmax.
  split; [eexists; split; [reflexivity | exact Hmin]|].
  split; [eexists; split; [reflexivity | exact Hmax]|].
  split; [now apply np_median_constant|].
  unfold m_crr. simpl.
  assert (fold_left Qmin xs x == fold_left Qmax xs x) as E by (now rewrite Hmin, Hmax).
  apply Qeq_bool_iff in E. now rewrite E.
Qed.

Lemma constant_cell_metrics_witness :
  m_median (repeat 42 10) == 42 /\ m_crr (repeat 42 10) = Some sentinel.
Proof.
  destruct (constant_cell_metrics 42 (repeat 42 10)) as (_ & _ & Hmed & Hcrr).
  - discriminate.
  - simpl. repeat constructor.
  - split; assumption.
Defined.

(** ** Coefficient of variation *)

(** C10.  [m_cv] divides the standard deviation by the mean and tests
    nothing: for a nonzero mean the result is the quotient, for a zero mean
    it is the infinity or the nan of the float division, so never the
    sentinel. *)
Theorem m_cv_divides_unguarded (std_of mean_of : list Q -> Q) (data : list Q) :
  data <> [] ->
  (~ mean_of data == 0 ->
   m_cv std_of mean_of data = finite (std_of data / mean_of data)) /\
  (mean_of data == 0 -> ~ std_of data == 0 -> m_cv std_of mean_of data = inf) /\
  (mean_of data == 0 -> std_of data == 0 -> m_cv std_of mean_of data = nan) /\
  (mean_of data == 0 -> m_cv std_of mean_of data <> finite sentinel).
Proof.
  intros _. unfold m_cv, np_divide.
  destruct (Qeq_bool (mean_of data) 0) eqn:Em.
  - apply Qeq_bool_iff in Em.
    split; [intros H; contradiction|].
    destruct (Qeq_bool (std_of data) 0) eqn:Es.
    + apply Qeq_bool_iff in Es. repeat split; try discriminate; try reflexivity.
      intros _ H. contradiction.
    + assert (~ std_of data == 0) as Hs
        by (intros H; apply Qeq_bool_iff in H; congruence).
      repeat split; try discriminate; try reflexivity.
      intros _ H. contradiction.
  - assert (~ mean_of data == 0) as Hm
      by (intros H; apply Qeq_bool_iff in H; congruence).
    split; [reflexivity|]. repeat split; intros H; contradiction.
Qed.

Lemma m_cv_divides_unguarded_witness :
  m_cv (np_std sqrt_on_squares) np_mean [1; 3] = finite (2 # 4) /\
  m_cv (np_std sqrt_on_squares) np_mean [-1; 1] = inf.
Proof.
  destruct (m_cv_divides_unguarded (np_std sqrt_on_squares) np_mean [1; 3])
    as (H1 & _); [discriminate|].
  destruct (m_cv_divides_unguarded (np_std sqrt_on_squares) np_mean [-1; 1])
    as (_ & H2 & _); [discriminate|].
  split.
  - rewrite H1 by discriminate. vm_compute. reflexivity.
  - apply H2; [reflexivity | discriminate].
Defined.
